(** * Serverless todo API: the Express handlers and their properties

    The repository holds three revisions of one Express application:
    - [IndexJs]  : src/src/index.js  (static JWT secret, no field validation),
    - [Part000]  : the revision that reads the JWT secret from the parameter
                   store, validates the registration fields and queues a
                   welcome message,
    - [Part001]  : the revision that also validates the e-mail address, sends
                   the welcome mail itself and wraps the handlers in try/catch.

    The handlers are embedded as functions of the parsed request, of the
    state of the DynamoDB table and of the outcome of each external call.
    What the application takes from its libraries (the key derivation, the
    JWT library, the regular-expression match, the rendering of numbers and
    errors) is a parameter of the development, gathered in [externals]. *)

From Stdlib Require Import ZArith Ascii String.
From stdpp Require Import base option list strings gmap.

Set Warnings "-register-all".

Local Open Scope string_scope.
Local Open Scope Z_scope.

(** ** JSON values and the JavaScript operations applied to them *)

Module Js.

Section Values.
(** JavaScript numbers: the handlers never compute with the numbers of a
    request, they only render them. *)
Context {Num : Type}.

Inductive json : Type :=
| JNull
| JBool (b : bool)
| JNum (n : Num)
| JStr (s : string)
| JArr (elems : list json)
| JObj (props : list (string * json)).

(** A character of a [string] stands for one UTF-16 code unit, so that
    [String.length] is the [length] of a JavaScript string. *)

(** Own properties of a parsed object, the keys being distinct. *)
Fixpoint assoc (k : string) (props : list (string * json)) : option json :=
  match props with
  | [] => None
  | (k', v) :: rest => if String.eqb k k' then Some v else assoc k rest
  end.

(** [o[k]] for the property names the handlers read.  An array owns its
    indices and "length" only, none of which a handler asks for. *)
Definition own_property (o : json) (k : string) : option json :=
  match o with
  | JObj props => assoc k props
  | _ => None
  end.

Variable num_to_string : Num -> string.

(** ToString on a value that came out of JSON.parse; [None] when the
    conversion throws.  A parsed object has no callable property, hence an
    own "toString" leaves nothing to call; an array joins its elements,
    null rendering as the empty string. *)
Fixpoint js_to_string (v : json) : option string :=
  match v with
  | JNull => Some "null"
  | JBool b => Some (if b then "true" else "false")
  | JNum n => Some (num_to_string n)
  | JStr s => Some s
  | JArr elems =>
      (fix join (l : list json) : option string :=
         match l with
         | [] => Some ""
         | x :: rest =>
             let elem := match x with JNull => Some "" | _ => js_to_string x end in
             match rest with
             | [] => elem
             | _ :: _ =>
                 match elem, join rest with
                 | Some a, Some b => Some (a +:+ "," +:+ b)
                 | _, _ => None
                 end
             end
         end) elems
  | JObj props =>
      match assoc "toString" props with
      | Some _ => None
      | None => Some "[object Object]"
      end
  end.

(** A template-literal hole or a [+] operand; [undefined] is [None]. *)
Definition render (v : option json) : option string :=
  match v with
  | None => Some "undefined"
  | Some j => js_to_string j
  end.

(** [s.split(sep)] for a one-character separator. *)
Fixpoint split (sep : ascii) (s : string) : list string :=
  match s with
  | EmptyString => [EmptyString]
  | String c rest =>
      if Ascii.eqb c sep then EmptyString :: split sep rest
      else match split sep rest with
           | [] => [String c EmptyString]
           | w :: ws => String c w :: ws
           end
  end.

End Values.

Arguments json : clear implicits.

End Js.
Export Js.


(** ** Data model *)

(** The three revisions of the application. *)
Inductive variant : Type := IndexJs | Part000 | Part001.

(** What a handler can throw. *)
Inductive js_error : Type :=
| TypeError        (* a property of null, a non-function called, a bad argument type *)
| MarshallError    (* marshall on an undefined property value or a refused number *)
| StoreFailure     (* a DynamoDB command rejected *)
| SecretFailure    (* the GetParameter command rejected *)
| NotifyFailure    (* the SQS or SES command rejected *)
| TokenError.      (* jwt.verify threw *)

(** External calls, in the order they are started. *)
Inductive call : Type :=
| GetItem (pk sk : string)
| PutItem (pk sk : string)
| GetParameter
| SendNotification
| JwtVerify (token : string).

Section Model.
Context {Num : Type}.
Abbreviation value := (json Num).

(** [res.json(v)] and [res.send(object)] answer with a JSON document,
    [res.send(string)] with the bare text. *)
Inductive body : Type :=
| JsonBody (j : value)
| TextBody (s : string).

Record response : Type := { status : Z; payload : body }.

(** An item of the table, besides its key.  unmarshall gives back the value
    that marshall accepted, so the table holds the JavaScript object itself;
    what marshall refuses never reaches the table. *)
Record item : Type := { data : value; created_at : option string }.

(** The decoded token, [req.user]. *)
Record claims : Type :=
  { username : option value; email : option value; exp : Z }.

(** What the application calls in its libraries. *)
Record externals : Type := {
  (* Number.prototype.toString *)
  num_to_string : Num -> string;
  (* marshall converts the number: it throws on a number that is not finite
     or lies outside the safe-integer range *)
  safe_number : Num -> bool;
  (* [v < n] on a parsed value, with its coercions; None when they throw *)
  js_lt : value -> Z -> option bool;
  (* crypto.pbkdf2Sync(password, salt, 1000, 64, 'sha512').toString('hex') *)
  pbkdf2Sync : string -> string -> string;
  (* s.toLowerCase().match(<the address pattern>) !== null *)
  email_match : string -> bool;
  (* jwt.sign(payload, secret) *)
  jwt_sign : claims -> string -> string;
  (* jwt.verify(token, secret) when Date.now() is the third argument;
     None when it throws *)
  jwt_verify : string -> string -> Z -> option claims;
  (* err.toString() *)
  err_to_string : js_error -> string
}.

(** The table and the outcome of each external call of one request. *)
Record world : Type := {
  table : gmap (string * string) item;
  get_item_ok : bool;            (* the GetItemCommand resolves *)
  put_item_ok : bool;            (* the PutItemCommand resolves *)
  parameter : option string;     (* the parameter value, or the command rejects *)
  notify_ok : bool;              (* the welcome message is accepted *)
  now_ms : Z;                    (* Date.now() *)
  now_iso : string;              (* new Date().toISOString() *)
  random_hex : string            (* crypto.randomBytes(16).toString('hex') *)
}.

(** ** Handlers as computations

    A handler threads the table and the log of external calls, and stops
    early when it answers ([return res...]) or throws. *)

Record hstate : Type :=
  { st_table : gmap (string * string) item; st_calls : list call }.

Inductive flow (A : Type) : Type :=
| Go (a : A)
| Reply (r : response)
| Throw (e : js_error).
Arguments Go {A} a.
Arguments Reply {A} r.
Arguments Throw {A} e.

Definition handler (A : Type) : Type := hstate -> hstate * flow A.

Definition ret {A} (a : A) : handler A := fun s => (s, Go a).

Definition bind {A B} (m : handler A) (k : A -> handler B) : handler B :=
  fun s =>
    match m s with
    | (s', Go a) => k a s'
    | (s', Reply r) => (s', Reply r)
    | (s', Throw e) => (s', Throw e)
    end.

Definition reply {A} (r : response) : handler A := fun s => (s, Reply r).

Definition throw {A} (e : js_error) : handler A := fun s => (s, Throw e).

(** [try { m } catch (error) { h error }] *)
Definition catch {A} (m : handler A) (h : js_error -> handler A) : handler A :=
  fun s =>
    match m s with
    | (s', Throw e) => h e s'
    | other => other
    end.

Definition log (c : call) : handler unit :=
  fun s => ({| st_table := st_table s; st_calls := st_calls s ++ [c] |}, Go tt).

Definition of_option {A} (e : js_error) (o : option A) : handler A :=
  match o with
  | Some a => ret a
  | None => throw e
  end.

End Model.

Arguments body : clear implicits.
Arguments response : clear implicits.
Arguments item : clear implicits.
Arguments claims : clear implicits.
Arguments externals : clear implicits.
Arguments world : clear implicits.
Arguments hstate : clear implicits.
Arguments flow : clear implicits.
Arguments Go {Num A} a.
Arguments Reply {Num A} r.
Arguments Throw {Num A} e.
Arguments handler : clear implicits.

Declare Scope handler_scope.
Delimit Scope handler_scope with handler.
Notation "x <- m ;; k" := (bind m (fun x => k))
  (at level 100, m at next level, right associativity) : handler_scope.
Notation "m ;; k" := (bind m (fun _ => k))
  (at level 100, right associativity) : handler_scope.

(** ** The application *)

Definition dquote : string := String (Ascii.ascii_of_nat 34) EmptyString.

(** [const secretKey = 'mysecretkey'] of src/src/index.js. *)
Definition secretKey : string := "mysecretkey".

(** The fields the later revisions require of a registration. *)
Definition required : list string := ["username"; "password"; "fullname"; "email"].

Section App.
Context {Num : Type}.
Variable E : externals Num.
Abbreviation value := (json Num).

Local Open Scope handler_scope.

Definition message (status : Z) (text : string) : response Num :=
  {| status := status; payload := JsonBody (JObj [("message", JStr text)]) |}.

Definition unauthorized : response Num := message 401 "Unauthorized".

(** *** External calls *)

Section Calls.
Variable w : world Num.

(** [await ddbclient.send(new GetItemCommand(...))], giving [Item]. *)
Definition get_item (pk sk : string) : handler Num (option (item Num)) :=
  log (GetItem pk sk) ;;
  fun s => if get_item_ok w then (s, Go (st_table s !! (pk, sk)))
           else (s, Throw StoreFailure).

Definition store (pk sk : string) (it : item Num) : handler Num unit :=
  fun s => ({| st_table := <[(pk, sk) := it]> (st_table s);
               st_calls := st_calls s |}, Go tt).

(** [await ddbclient.send(new PutItemCommand(...))] *)
Definition put_item (pk sk : string) (it : item Num) : handler Num unit :=
  log (PutItem pk sk) ;;
  if put_item_ok w then store pk sk it else throw StoreFailure.

(** [ddbclient.send(new PutItemCommand(...))] with the promise dropped: a
    rejection reaches the unhandledRejection logger, not the handler. *)
Definition put_item_detached (pk sk : string) (it : item Num) : handler Num unit :=
  log (PutItem pk sk) ;;
  if put_item_ok w then store pk sk it else ret tt.

(** [await getParameterStore(parameterStoreJwtSecretName)], the one
    parameter the application reads. *)
Definition getParameterStore : handler Num string :=
  log GetParameter ;;
  of_option SecretFailure (parameter w).

(** The welcome message: queued in the second revision, mailed in the third,
    whose text holds `Hello ${fullname}`. *)
Definition sendWelcomeEmail (v : variant) (fullname : option value)
  : handler Num unit :=
  match v with
  | Part001 => of_option TypeError (render (num_to_string E) fullname) ;; ret tt
  | IndexJs | Part000 => ret tt
  end ;;
  log SendNotification ;;
  if notify_ok w then ret tt else throw NotifyFailure.

(** The signing secret of a revision. *)
Definition signing_secret (v : variant) : handler Num string :=
  match v with
  | IndexJs => ret secretKey
  | Part000 | Part001 => getParameterStore
  end.

(** *** authMiddleware *)

Definition authMiddleware (v : variant) (authorization : option string)
  : handler Num (claims Num) :=
  match authorization with
  | None | Some EmptyString => reply unauthorized          (* !authHeader *)
  | Some authHeader =>
      match split " " authHeader !! 1%nat with
      | None | Some EmptyString => reply unauthorized      (* !token *)
      | Some token =>
          catch
            (secret <- signing_secret v ;;
             log (JwtVerify token) ;;
             of_option TokenError (jwt_verify E token secret (now_ms w)))
            (fun _ => reply unauthorized)
      end
  end.

(** *** POST /register *)

(** [val.length < 3]; [None] when the test throws. *)
Definition too_short (val : value) : option bool :=
  match val with
  | JNull => None                                          (* null.length *)
  | JStr s => Some (String.length s <? 3)%nat
  | JArr elems => Some (length elems <? 3)%nat
  | JNum _ | JBool _ => Some false                         (* undefined < 3 *)
  | JObj props =>
      match assoc "length" props with
      | None => Some false
      | Some len => js_lt E len 3
      end
  end.

(** One turn of the loop over [required]. *)
Definition check_field (reqbody : value) (field : string) : handler Num unit :=
  match own_property reqbody "hasOwnProperty" with
  | Some _ => throw TypeError                              (* not a function *)
  | None =>
      match own_property reqbody field with
      | None =>
          reply (message 400
                   ("Missing " +:+ dquote +:+ field +:+ dquote +:+ " attribute"))
      | Some val =>
          short <- of_option TypeError (too_short val) ;;
          if short
          then reply (message 400
                        ("Value of " +:+ dquote +:+ field +:+ dquote +:+ " is too short"))
          else ret tt
      end
  end.

Fixpoint for_each (fields : list string) (f : string -> handler Num unit)
  : handler Num unit :=
  match fields with
  | [] => ret tt
  | field :: rest => f field ;; for_each rest f
  end.

(** [validateEmail(email) === null] *)
Definition validateEmail (mail : option value) : handler Num bool :=
  s <- of_option TypeError (render (num_to_string E) mail) ;;
  ret (email_match E s).

(** [crypto.pbkdf2Sync(password, salt, ...)]: both must be strings. *)
Definition derive (password salt : option value) : handler Num string :=
  match password, salt with
  | Some (JStr p), Some (JStr s) => ret (pbkdf2Sync E p s)
  | _, _ => throw TypeError
  end.

(** The partition key `user#${username}`. *)
Definition user_pk (uname : option value) : handler Num string :=
  s <- of_option TypeError (render (num_to_string E) uname) ;;
  ret ("user#" +:+ s).

(** marshall converts a value of a request unless a number in it is refused. *)
Fixpoint marshallable (val : value) : bool :=
  match val with
  | JNum n => safe_number E n
  | JArr elems => forallb marshallable elems
  | JObj props => forallb (fun kv => marshallable (snd kv)) props
  | JNull | JBool _ | JStr _ => true
  end.

(** marshall of an object literal: it throws on an undefined property value
    (removeUndefinedValues is not set) and on a value it cannot convert. *)
Fixpoint marshall (props : list (string * option value))
  : handler Num (list (string * value)) :=
  match props with
  | [] => ret []
  | (k, None) :: _ => throw MarshallError
  | (k, Some val) :: rest =>
      if marshallable val
      then rest' <- marshall rest ;; ret ((k, val) :: rest')
      else throw MarshallError
  end.

Definition validates (v : variant) : bool :=
  match v with IndexJs => false | Part000 | Part001 => true end.

(** The checks that precede the first store call: the loop over [required],
    then the address pattern in the third revision. *)
Definition validation (v : variant) (reqbody : value) : handler Num unit :=
  (if validates v then for_each required (check_field reqbody) else ret tt) ;;
  match v with
  | Part001 =>
      valid <- validateEmail (own_property reqbody "email") ;;
      if valid then ret tt else reply (message 400 "Invalid email address")
  | IndexJs | Part000 => ret tt
  end.

(** What /register does once the checks are passed. *)
Definition registration (v : variant) (reqbody : value) : handler Num Empty_set :=
  let uname := own_property reqbody "username" in
  let password := own_property reqbody "password" in
  let mail := own_property reqbody "email" in
  let fullname := own_property reqbody "fullname" in
  pk <- user_pk uname ;;
  existingUser <- get_item pk "user" ;;
  match existingUser with
  | Some _ => reply (message 400 "Username already taken")
  | None =>
      let salt := random_hex w in
      hashedPassword <- derive password (Some (JStr salt)) ;;
      let createdAt := now_iso w in
      user <- marshall
                (match v with
                 | IndexJs =>
                     [("username", uname); ("password", Some (JStr hashedPassword));
                      ("salt", Some (JStr salt))]
                 | Part000 | Part001 =>
                     [("username", uname); ("password", Some (JStr hashedPassword));
                      ("salt", Some (JStr salt)); ("fullname", fullname);
                      ("email", mail)]
                 end) ;;
      put_item pk "user" {| data := JObj user; created_at := Some createdAt |} ;;
      match v with
      | IndexJs => ret tt
      | Part000 | Part001 => sendWelcomeEmail v fullname
      end ;;
      reply (message 201 "User registered successfully")
  end.

Definition post_register (v : variant) (reqbody : value) : handler Num Empty_set :=
  validation v reqbody ;; registration v reqbody.

(** *** POST /login *)

Definition invalid_credentials : string := "Invalid username or password".

(** [hashedPassword !== userItem.data.password] *)
Definition differs (hashed : string) (stored : option value) : bool :=
  match stored with
  | Some (JStr h) => negb (String.eqb hashed h)
  | _ => true
  end.

Definition post_login (v : variant) (reqbody : value) : handler Num Empty_set :=
  let uname := own_property reqbody "username" in
  let password := own_property reqbody "password" in
  pk <- user_pk uname ;;
  existingUser <- get_item pk "user" ;;
  match existingUser with
  | None => reply (message 401 invalid_credentials)
  | Some userItem =>
      hashedPassword <- derive password (own_property (data userItem) "salt") ;;
      if differs hashedPassword (own_property (data userItem) "password")
      then
        match v with
        | IndexJs | Part000 =>
            reply {| status := 401; payload := TextBody invalid_credentials |}
        | Part001 => reply (message 401 invalid_credentials)
        end
      else
        secret <- signing_secret v ;;
        let token :=
          jwt_sign E
            {| username := uname;
               email := match v with
                        | IndexJs => None
                        | Part000 | Part001 => own_property (data userItem) "email"
                        end;
               exp := now_ms w / 1000 + 60 * 60 * 12 |}
            secret in
        reply {| status := 200; payload := JsonBody (JObj [("token", JStr token)]) |}
  end.

(** *** The routes behind authMiddleware *)

Definition get_protected (user : claims Num) : handler Num Empty_set :=
  name <- of_option TypeError (render (num_to_string E) (username user)) ;;
  reply {| status := 200; payload := TextBody ("Hello " +:+ name +:+ "!") |}.

(** The sort key of a todo: `todo-${username}`, `todo#${username}` in the
    third revision. *)
Definition todo_sk (v : variant) (user : claims Num) : handler Num string :=
  name <- of_option TypeError (render (num_to_string E) (username user)) ;;
  ret (match v with
       | IndexJs | Part000 => "todo-" +:+ name
       | Part001 => "todo#" +:+ name
       end).

(** [next(error)] and a throw in a synchronous handler both end in the
    application's error handler. *)
Definition error_handler (e : js_error) : response Num :=
  message 500 (err_to_string E e).

Definition get_todos (v : variant) (user : claims Num) (id : string)
  : handler Num Empty_set :=
  match id with
  | EmptyString => reply {| status := 200; payload := JsonBody (JArr []) |}
  | _ =>
      catch
        (sk <- todo_sk v user ;;
         itemResponse <- get_item ("todo#" +:+ id) sk ;;
         reply {| status := 200;
                  payload := JsonBody (match itemResponse with
                                       | Some it => data it
                                       | None => JArr []
                                       end) |})
        (fun e => reply (error_handler e))
  end.

Definition put_todos (v : variant) (user : claims Num) (id : string)
  (reqbody : value) : handler Num Empty_set :=
  match id with
  | EmptyString => reply (message 400 "Bad request: Missing todo id.")
  | _ =>
      sk <- todo_sk v user ;;
      let pk := "todo#" +:+ id in
      (* marshall(todoItem), before the command is sent *)
      marshall ([("pk", Some (JStr pk)); ("sk", Some (JStr sk));
                 ("data", Some reqbody)]
                ++ match v with
                   | IndexJs | Part000 => []
                   | Part001 => [("created_at", Some (JStr (now_iso w)))]
                   end) ;;
      put_item_detached pk sk
        {| data := reqbody;
           created_at := match v with
                         | IndexJs | Part000 => None
                         | Part001 => Some (now_iso w)
                         end |} ;;
      reply (message 200 "Todo successfully added")
  end.

End Calls.

(** *** Running a route *)

Inductive outcome : Type :=
| Responded (r : response Num)
| Unanswered (e : js_error).   (* the handler's promise rejected without a catch *)

Record result : Type := {
  answer : outcome;
  calls : list call;
  table_after : gmap (string * string) (item Num)
}.

Definition run (on_throw : js_error -> outcome) (h : handler Num Empty_set)
  (w : world Num) : result :=
  match h {| st_table := table w; st_calls := [] |} with
  | (s, Reply r) =>
      {| answer := Responded r; calls := st_calls s; table_after := st_table s |}
  | (s, Throw e) =>
      {| answer := on_throw e; calls := st_calls s; table_after := st_table s |}
  | (s, Go a) => match a with end
  end.

(** A throw in a synchronous handler, or one passed to [next]. *)
Definition forwarded (e : js_error) : outcome := Responded (error_handler e).

(** A throw in the async handlers of /register and /login: only the third
    revision catches it and passes it to [next]; in the others the promise
    of the handler is rejected, which Express 4 leaves to the
    unhandledRejection listener. *)
Definition uncaught (v : variant) (e : js_error) : outcome :=
  match v with
  | IndexJs | Part000 => Unanswered e
  | Part001 => forwarded e
  end.

Definition register (v : variant) (reqbody : value) (w : world Num) : result :=
  run (uncaught v) (post_register w v reqbody) w.

Definition login (v : variant) (reqbody : value) (w : world Num) : result :=
  run (uncaught v) (post_login w v reqbody) w.

Definition protected (v : variant) (authorization : option string)
  (w : world Num) : result :=
  run forwarded (user <- authMiddleware w v authorization ;; get_protected user) w.

Definition todos_get (v : variant) (authorization : option string) (id : string)
  (w : world Num) : result :=
  run forwarded (user <- authMiddleware w v authorization ;; get_todos w v user id) w.

Definition todos_put (v : variant) (authorization : option string) (id : string)
  (reqbody : value) (w : world Num) : result :=
  run forwarded
    (user <- authMiddleware w v authorization ;; put_todos w v user id reqbody) w.

(** The request passes authMiddleware as [user]. *)
Definition authenticated (w : world Num) (v : variant) (authorization : option string)
  (user : claims Num) : Prop :=
  exists s, authMiddleware w v authorization {| st_table := table w; st_calls := [] |}
            = (s, Go user).

End App.

Arguments outcome : clear implicits.
Arguments result : clear implicits.


(** ** Histories of requests *)

Section Histories.
Context {Num : Type}.
Variable E : externals Num.
Variable v : variant.

Inductive request : Type :=
| Register (reqbody : json Num)
| Login (reqbody : json Num)
| Protected (authorization : option string)
| TodosGet (authorization : option string) (id : string)
| TodosPut (authorization : option string) (id : string) (reqbody : json Num).

Definition serve (req : request) (w : world Num) : result Num :=
  match req with
  | Register reqbody => register E v reqbody w
  | Login reqbody => login E v reqbody w
  | Protected authorization => protected E v authorization w
  | TodosGet authorization id => todos_get E v authorization id w
  | TodosPut authorization id reqbody => todos_put E v authorization id reqbody w
  end.

(** The world of a request, met with the table the earlier requests left. *)
Definition with_table (w : world Num) (t : gmap (string * string) (item Num))
  : world Num :=
  {| table := t;
     get_item_ok := get_item_ok w;
     put_item_ok := put_item_ok w;
     parameter := parameter w;
     notify_ok := notify_ok w;
     now_ms := now_ms w;
     now_iso := now_iso w;
     random_hex := random_hex w |}.

Fixpoint replay (t : gmap (string * string) (item Num))
  (history : list (request * world Num)) : gmap (string * string) (item Num) :=
  match history with
  | [] => t
  | (req, w) :: rest => replay (table_after (serve req (with_table w t))) rest
  end.

(** The request is a PUT /todos/[id] that authMiddleware lets through for a
    user rendered as [name]. *)
Definition puts_todo (id name : string) (req : request) (w : world Num) : Prop :=
  match req with
  | TodosPut authorization id' _ =>
      id' = id
      /\ exists user, authenticated E w v authorization user
                      /\ render (num_to_string E) (username user) = Some name
  | _ => False
  end.

(** No request of the history is such a PUT. *)
Fixpoint without_put (id name : string) (t : gmap (string * string) (item Num))
  (history : list (request * world Num)) : Prop :=
  match history with
  | [] => True
  | (req, w) :: rest =>
      ~ puts_todo id name req (with_table w t)
      /\ without_put id name (table_after (serve req (with_table w t))) rest
  end.

End Histories.

Arguments request : clear implicits.

(** ** The token service

    jsonwebtoken is not part of the sources; its two operations are modelled
    after the specification of the Token Service. *)

Module TokenService.
Section Service.
Context {Value : Type}.

(** Modelled from the spec: the Identity Claim, the specification's
    ephemeral structure `{subjectIdentifier, auxiliaryClaims, expiresAt}`
    carried by a token (the jsonwebtoken payload is missing from the
    sources). *)
Record IdentityClaim : Type := {
  subjectIdentifier : string;
  auxiliaryClaims : gmap string Value;
  expiresAt : Z
}.

(** The symmetric signing algorithm, keyed by the secret, and the
    serialisation of a claim inside a token. *)
Variable mac : string -> string -> string.
Variable encode : IdentityClaim -> string.
Variable decode : string -> option IdentityClaim.

(** Modelled from the spec: the signed payload of `issue` (jwt.sign is
    missing from the sources): the serialised claim followed by its tag
    under the secret. *)
Definition sign (c : IdentityClaim) (secret : string) : string :=
  encode c +:+ "." +:+ mac secret (encode c).

(** Modelled from the spec: `issue(subjectIdentifier, auxiliaryClaims,
    secret, ttlSeconds)` (jwt.sign is missing from the sources), which
    embeds `expiresAt = now + ttlSeconds` into the signed payload alongside
    the subject and the auxiliary claims. *)
Definition issue (subject : string) (aux : gmap string Value) (secret : string)
  (ttlSeconds now : Z) : string :=
  sign {| subjectIdentifier := subject; auxiliaryClaims := aux;
          expiresAt := now + ttlSeconds |} secret.

(** Modelled from the spec: `verify(token, secret)` (jwt.verify is missing
    from the sources), failing with InvalidToken ([None]) on a malformed
    structure, on a signature mismatch and on expiry, `now > expiresAt`. *)
Definition verify (token secret : string) (now : Z) : option IdentityClaim :=
  match split "." token with
  | [signed; tag] =>
      if String.eqb tag (mac secret signed)
      then match decode signed with
           | Some c => if expiresAt c <? now then None else Some c
           | None => None
           end
      else None
  | _ => None
  end.

End Service.
Arguments IdentityClaim : clear implicits.
End TokenService.

(** The application over the token service: jwt.verify is the service's
    verify at Date.now() in whole seconds, its claim read as [req.user]. *)
Section TokenLibrary.
Context {Num : Type}.
Variable E : externals Num.
Variable mac : string -> string -> string.
Variable decode : string -> option (TokenService.IdentityClaim (json Num)).

Definition to_claims (c : TokenService.IdentityClaim (json Num)) : claims Num :=
  {| username := Some (JStr (TokenService.subjectIdentifier c));
     email := TokenService.auxiliaryClaims c !! "email";
     exp := TokenService.expiresAt c |}.

Definition verify_with : externals Num := {|
  num_to_string := num_to_string E;
  safe_number := safe_number E;
  js_lt := js_lt E;
  pbkdf2Sync := pbkdf2Sync E;
  email_match := email_match E;
  jwt_sign := jwt_sign E;
  jwt_verify := fun token secret now =>
    to_claims <$> TokenService.verify mac decode token secret (now / 1000);
  err_to_string := err_to_string E
|}.

(** The secret a revision verifies with, when it can be had. *)
Definition current_secret (w : world Num) (v : variant) : option string :=
  match v with
  | IndexJs => Some secretKey
  | Part000 | Part001 => parameter w
  end.

End TokenLibrary.

(** ** Sample libraries and worlds, for the examples *)

Module Sample.

Definition lib : externals Z := {|
  num_to_string := fun _ => "0";
  safe_number := fun z => (-9007199254740991 <=? z) && (z <=? 9007199254740991);
  js_lt := fun v n => match v with JNum z => Some (z <? n) | _ => Some false end;
  pbkdf2Sync := fun password salt => salt +:+ ":" +:+ password;
  email_match := fun _ => true;
  jwt_sign := fun c secret =>
    match username c with
    | Some (JStr u) => u +:+ "@" +:+ secret
    | _ => "@" +:+ secret
    end;
  jwt_verify := fun token secret now =>
    if String.eqb token ("abc@" +:+ secret)
    then Some {| username := Some (JStr "abc"); email := None; exp := now / 1000 + 1 |}
    else None;
  err_to_string := fun _ => "Error"
|}.

Definition abc_user : item Z := {|
  data := JObj [("username", JStr "abc"); ("password", JStr "0a1b:abcdef");
                ("salt", JStr "0a1b"); ("fullname", JStr "Abc Def");
                ("email", JStr "a@b.com")];
  created_at := Some "2023-01-01T00:00:00.000Z"
|}.

Definition world_of (t : gmap (string * string) (item Z)) (put_ok : bool)
  : world Z := {|
  table := t;
  get_item_ok := true;
  put_item_ok := put_ok;
  parameter := Some "s3cret";
  notify_ok := true;
  now_ms := 1700000000999;
  now_iso := "2023-11-14T22:13:20.999Z";
  random_hex := "0a1b"
|}.

Definition empty_world : world Z := world_of ∅ true.

(** A world whose parameter store does not answer. *)
Definition dark_world : world Z := {|
  table := ∅;
  get_item_ok := true;
  put_item_ok := true;
  parameter := None;
  notify_ok := true;
  now_ms := 1700000000999;
  now_iso := "2023-11-14T22:13:20.999Z";
  random_hex := "0a1b"
|}.

(** A world whose notification service refuses. *)
Definition silent_world : world Z := {|
  table := ∅;
  get_item_ok := true;
  put_item_ok := true;
  parameter := Some "s3cret";
  notify_ok := false;
  now_ms := 1700000000999;
  now_iso := "2023-11-14T22:13:20.999Z";
  random_hex := "0a1b"
|}.

(** A library whose tokens name the secret, then the user, and that signs
    only claims without an address that expire at 1700043200. *)
Definition strict_lib : externals Z := {|
  num_to_string := fun _ => "0";
  safe_number := fun z => (-9007199254740991 <=? z) && (z <=? 9007199254740991);
  js_lt := fun v n => match v with JNum z => Some (z <? n) | _ => Some false end;
  pbkdf2Sync := fun password salt => salt +:+ ":" +:+ password;
  email_match := fun _ => true;
  jwt_sign := fun c secret =>
    match username c, email c with
    | Some (JStr u), None =>
        if exp c =? 1700043200 then secret +:+ "@" +:+ u else "!"
    | _, _ => "!"
    end;
  jwt_verify := fun token secret now =>
    if String.eqb token (secret +:+ "@abc")
    then Some {| username := Some (JStr "abc"); email := None; exp := 1700043200 |}
    else None;
  err_to_string := fun _ => "Error"
|}.

Definition fresh : hstate Z := {| st_table := ∅; st_calls := [] |}.

Definition abc_world : world Z := world_of {[ ("user#abc", "user") := abc_user ]} true.

Definition abc_registration : json Z :=
  JObj [("username", JStr "abc"); ("password", JStr "abcdef");
        ("fullname", JStr "Abc Def"); ("email", JStr "a@b.com")].

(** A body with a number beyond the safe integers. *)
Definition big_number : json Z := JObj [("n", JNum 9007199254740993)].

Definition abc_claims : claims Z :=
  {| username := Some (JStr "abc"); email := Some (JStr "a@b.com"); exp := 1700043200 |}.

(** A small signing scheme and claim serialisation. *)
Definition mac (secret signed : string) : string := secret +:+ "/" +:+ signed.

Definition abc_identity : TokenService.IdentityClaim (json Z) :=
  {| TokenService.subjectIdentifier := "abc";
     TokenService.auxiliaryClaims := {[ "email" := JStr "a@b.com" ]};
     TokenService.expiresAt := 1700043200 |}.

Definition encode (c : TokenService.IdentityClaim (json Z)) : string :=
  TokenService.subjectIdentifier c.

Definition decode (signed : string) : option (TokenService.IdentityClaim (json Z)) :=
  if String.eqb signed "abc" then Some abc_identity else None.

End Sample.

(** ** Vocabulary of the properties *)

(** The character [c] occurs in [s]. *)
Fixpoint mentions (c : ascii) (s : string) : bool :=
  match s with
  | EmptyString => false
  | String c' rest => Ascii.eqb c' c || mentions c rest
  end.

(** A header that carries no token: absent, a lone scheme word, or a scheme
    word followed by a space and then nothing or another space. *)
Inductive no_token : option string -> Prop :=
| no_header : no_token None
| lone_scheme scheme : mentions " " scheme = false -> no_token (Some scheme)
| scheme_only scheme : mentions " " scheme = false -> no_token (Some (scheme +:+ " "))
| scheme_gap scheme rest :
    mentions " " scheme = false -> no_token (Some (scheme +:+ "  " +:+ rest)).

(** The key under which a revision keeps todo [id] of the user rendered as
    [name]. *)
Definition todo_key (v : variant) (id name : string) : string * string :=
  ("todo#" +:+ id,
   match v with
   | IndexJs | Part000 => "todo-" +:+ name
   | Part001 => "todo#" +:+ name
   end).

(** The item a revision writes for a todo. *)
Definition todo_record {Num : Type} (v : variant) (w : world Num)
  (reqbody : json Num) : item Num :=
  {| data := reqbody;
     created_at := match v with
                   | IndexJs | Part000 => None
                   | Part001 => Some (now_iso w)
                   end |}.

Section Vocabulary.
Context {Num : Type}.
Variable E : externals Num.
Variable w : world Num.
Variable v : variant.

(** What authMiddleware does once it holds a token. *)
Definition verify_step (token : string) : handler Num (claims Num) :=
  catch
    (bind (signing_secret w v) (fun secret =>
       bind (log (JwtVerify token)) (fun _ =>
         of_option TokenError (jwt_verify E token secret (now_ms w)))))
    (fun _ => reply unauthorized).

(** A required field is defective when the body lacks it or its length test
    answers true. *)
Definition defective (reqbody : json Num) (field : string) : Prop :=
  match own_property reqbody field with
  | None => True
  | Some val => too_short E val = Some true
  end.

(** The message that names a defective field. *)
Definition complaint (reqbody : json Num) (field : string) : string :=
  match own_property reqbody field with
  | None => "Missing " +:+ dquote +:+ field +:+ dquote +:+ " attribute"
  | Some _ => "Value of " +:+ dquote +:+ field +:+ dquote +:+ " is too short"
  end.

(** The loop over the required fields runs to a verdict: the body does not
    shadow hasOwnProperty and no length test throws. *)
Definition checkable (reqbody : json Num) : Prop :=
  own_property reqbody "hasOwnProperty" = None
  /\ forall field val, In field required ->
       own_property reqbody field = Some val -> too_short E val <> None.

(** The registration is refused with a 400 that names a defective field,
    before any external call. *)
Definition refused_before_store (reqbody : json Num) : Prop :=
  exists field,
    In field required /\ defective reqbody field
    /\ answer (register E v reqbody w)
       = Responded (message 400 (complaint reqbody field))
    /\ calls (register E v reqbody w) = []
    /\ table_after (register E v reqbody w) = table w.

End Vocabulary.


(** ** The content-type middleware *)

(** [s] begins with [needle]. *)
Fixpoint starts_with (needle s : string) : bool :=
  match needle, s with
  | EmptyString, _ => true
  | String _ _, EmptyString => false
  | String a needle', String b s' => Ascii.eqb a b && starts_with needle' s'
  end.

(** [s.indexOf(needle)]: the first position where [needle] occurs, or -1. *)
Fixpoint indexOf (needle s : string) : Z :=
  if starts_with needle s then 0
  else match s with
       | EmptyString => -1
       | String _ rest =>
           let i := indexOf needle rest in
           if i =? -1 then -1 else i + 1
       end.

Section ContentType.
Context {Num : Type}.

Definition invalid_content_type : response Num :=
  {| status := 400;
     payload := JsonBody (JObj [("error", JStr "Invalid Content-Type")]) |}.

(** The first middleware of the application: [Some] is its 400, [None] is
    [next()].  [content_type] is [req.headers['content-type']]. *)
Definition content_type_guard (method : string) (content_type : option string)
  : option (response Num) :=
  match content_type with
  | None | Some EmptyString => None
  | Some ct =>
      if negb (String.eqb method "GET") && (indexOf "application/json" ct =? -1)
      then Some invalid_content_type
      else None
  end.

End ContentType.

(** ** Registrations of the expected shape *)

Section Shape.
Context {Num : Type}.
Variable E : externals Num.

(** The four fields are strings of at least three characters, and the body
    does not shadow hasOwnProperty. *)
Definition well_formed (reqbody : json Num) (uname password fullname mail : string)
  : Prop :=
  own_property reqbody "hasOwnProperty" = None
  /\ own_property reqbody "username" = Some (JStr uname)
  /\ own_property reqbody "password" = Some (JStr password)
  /\ own_property reqbody "fullname" = Some (JStr fullname)
  /\ own_property reqbody "email" = Some (JStr mail)
  /\ (3 <= String.length uname)%nat /\ (3 <= String.length password)%nat
  /\ (3 <= String.length fullname)%nat /\ (3 <= String.length mail)%nat.

(** The item /register writes for such a body. *)
Definition credential_record (v : variant) (w : world Num)
  (uname password fullname mail : string) : item Num :=
  {| data :=
       JObj (match v with
             | IndexJs =>
                 [("username", JStr uname);
                  ("password", JStr (pbkdf2Sync E password (random_hex w)));
                  ("salt", JStr (random_hex w))]
             | Part000 | Part001 =>
                 [("username", JStr uname);
                  ("password", JStr (pbkdf2Sync E password (random_hex w)));
                  ("salt", JStr (random_hex w));
                  ("fullname", JStr fullname);
                  ("email", JStr mail)]
             end);
     created_at := Some (now_iso w) |}.

(** The external calls of a registration that runs to its end. *)
Definition registration_calls (v : variant) (uname : string) : list call :=
  [GetItem ("user#" +:+ uname) "user"; PutItem ("user#" +:+ uname) "user"]
  ++ match v with
     | IndexJs => []
     | Part000 | Part001 => [SendNotification]
     end.

End Shape.

(** ** validateEmail

    The third revision lowers String(email) with toLowerCase and matches it
    against one anchored pattern, `^(L|Q)@(I|D)$`.  Writing C for the
    negated class of the characters < > ( ) [ ] backslash . , ; : whitespace
    @ and the double quote:
    - L is one or more C, followed by any number of groups made of a dot and
      one or more C;
    - Q is a double quote, one or more characters (the pattern's dot), and a
      double quote;
    - I is an opening bracket, four runs of one to three digits 0-9
      separated by dots, and a closing bracket;
    - D is one or more groups made of one or more of a-z, A-Z, hyphen, 0-9
      and a dot, followed by two or more of a-z, A-Z.
    The pattern has neither back-references nor look-around, so match
    answers non-null exactly on the strings of its language.  Strings are
    taken over the code units below 256. *)

Module Pattern.

Inductive regex : Type :=
| Void
| Eps
| Chr (class : ascii -> bool)
| Alt (r1 r2 : regex)
| Cat (r1 r2 : regex)
| Star (r : regex).

(** The language of a pattern. *)
Inductive Matches : regex -> string -> Prop :=
| MEps : Matches Eps EmptyString
| MChr class c : class c = true -> Matches (Chr class) (String c EmptyString)
| MAltL r1 r2 s : Matches r1 s -> Matches (Alt r1 r2) s
| MAltR r1 r2 s : Matches r2 s -> Matches (Alt r1 r2) s
| MCat r1 r2 s1 s2 s :
    Matches r1 s1 -> Matches r2 s2 -> s = s1 +:+ s2 -> Matches (Cat r1 r2) s
| MStarNil r : Matches (Star r) EmptyString
| MStarCons r s1 s2 s :
    Matches r s1 -> Matches (Star r) s2 -> s = s1 +:+ s2 -> Matches (Star r) s.

(** Matching by derivatives. *)
Fixpoint nullable (r : regex) : bool :=
  match r with
  | Void => false
  | Eps => true
  | Chr _ => false
  | Alt r1 r2 => nullable r1 || nullable r2
  | Cat r1 r2 => nullable r1 && nullable r2
  | Star _ => true
  end.

Fixpoint deriv (c : ascii) (r : regex) : regex :=
  match r with
  | Void => Void
  | Eps => Void
  | Chr class => if class c then Eps else Void
  | Alt r1 r2 => Alt (deriv c r1) (deriv c r2)
  | Cat r1 r2 =>
      if nullable r1 then Alt (Cat (deriv c r1) r2) (deriv c r2)
      else Cat (deriv c r1) r2
  | Star r1 => Cat (deriv c r1) (Star r1)
  end.

Fixpoint accepts (r : regex) (s : string) : bool :=
  match s with
  | EmptyString => nullable r
  | String c rest => accepts (deriv c r) rest
  end.

(** One or more, and at most one. *)
Definition repeated (r : regex) : regex := Cat r (Star r).
Definition opt (r : regex) : regex := Alt Eps r.

(** Character classes, by code unit. *)
Definition code (c : ascii) : nat := nat_of_ascii c.

Definition between (lo hi : nat) (c : ascii) : bool :=
  ((lo <=? code c) && (code c <=? hi))%nat.

Definition only (x : ascii) (c : ascii) : bool := Ascii.eqb c x.

Definition digit : ascii -> bool := between 48 57.

Definition letter (c : ascii) : bool := between 97 122 c || between 65 90 c.

(** The class of a-z, A-Z, hyphen and 0-9. *)
Definition host_char (c : ascii) : bool := letter c || only "-" c || digit c.

(** The whitespace class: tab, line feed, vertical tab, form feed, carriage return, space
    and no-break space. *)
Definition whitespace (c : ascii) : bool :=
  between 9 13 c || (code c =? 32)%nat || (code c =? 160)%nat.

(** The dot of a pattern: anything but a line terminator. *)
Definition any_char (c : ascii) : bool :=
  negb ((code c =? 10)%nat || (code c =? 13)%nat).

Definition quote : ascii := ascii_of_nat 34.
Definition backslash : ascii := ascii_of_nat 92.

(** The class C. *)
Definition local_char (c : ascii) : bool :=
  negb (only "<" c || only ">" c || only "(" c || only ")" c || only "[" c || only "]" c
        || only backslash c || only "." c || only "," c || only ";" c || only ":" c
        || whitespace c || only "@" c || only quote c).

(** One to three digits. *)
Definition digits13 : regex :=
  Cat (Chr digit) (opt (Cat (Chr digit) (opt (Chr digit)))).

Definition dotted : regex :=
  Cat (repeated (Chr local_char)) (Star (Cat (Chr (only ".")) (repeated (Chr local_char)))).

Definition quoted : regex :=
  Cat (Chr (only quote)) (Cat (repeated (Chr any_char)) (Chr (only quote))).

Definition bracketed : regex :=
  Cat (Chr (only "["))
    (Cat digits13 (Cat (Chr (only "."))
       (Cat digits13 (Cat (Chr (only "."))
          (Cat digits13 (Cat (Chr (only "."))
             (Cat digits13 (Chr (only "]"))))))))).

Definition named : regex :=
  Cat (repeated (Cat (repeated (Chr host_char)) (Chr (only "."))))
    (Cat (Chr letter) (Cat (Chr letter) (Star (Chr letter)))).

Definition address : regex :=
  Cat (Alt dotted quoted) (Cat (Chr (only "@")) (Alt bracketed named)).

(** [s.toLowerCase()] on code units below 256: the letters A-Z, and the
    capital letters of Latin-1 but for the multiplication sign. *)
Definition lower (c : ascii) : ascii :=
  if between 65 90 c || (between 192 222 c && negb (code c =? 215)%nat)
  then ascii_of_nat (code c + 32)
  else c.

Fixpoint toLowerCase (s : string) : string :=
  match s with
  | EmptyString => EmptyString
  | String c rest => String (lower c) (toLowerCase rest)
  end.

(** The test of validateEmail on String(email): lowered, then matched. *)
Definition email_matches (s : string) : bool := accepts address (toLowerCase s).

(** Every character of [s] is in the class. *)
Fixpoint all_chars (class : ascii -> bool) (s : string) : bool :=
  match s with
  | EmptyString => true
  | String c rest => class c && all_chars class rest
  end.

(** Every class of the pattern lies within [P]. *)
Fixpoint classes_within (P : ascii -> bool) (r : regex) : Prop :=
  match r with
  | Void | Eps => True
  | Chr class => forall c, class c = true -> P c = true
  | Alt r1 r2 | Cat r1 r2 => classes_within P r1 /\ classes_within P r2
  | Star r1 => classes_within P r1
  end.

(** Outside the whitespace class. *)
Definition solid (c : ascii) : bool := negb (whitespace c).

End Pattern.

(** The application with the pattern of the source for its address test. *)
Definition with_address_pattern {Num : Type} (E : externals Num) : externals Num := {|
  num_to_string := num_to_string E;
  safe_number := safe_number E;
  js_lt := js_lt E;
  pbkdf2Sync := pbkdf2Sync E;
  email_match := Pattern.email_matches;
  jwt_sign := jwt_sign E;
  jwt_verify := jwt_verify E;
  err_to_string := err_to_string E
|}.
(** ** Properties *)

(** Case analysis along a handler: split on the next test the handler makes. *)
Ltac crack H :=
  repeat (cbn in *;
    match type of H with
    | context [render ?f ?x] => destruct (render f x) eqn:?
    | context [get_item_ok ?w] => destruct (get_item_ok w) eqn:?
    | context [put_item_ok ?w] => destruct (put_item_ok w) eqn:?
    | context [notify_ok ?w] => destruct (notify_ok w) eqn:?
    | context [parameter ?w] => destruct (parameter w) eqn:?
    | context [differs ?a ?b] => destruct (differs a b) eqn:?
    | context [@lookup _ _ _ _ ?k ?m] => destruct (m !! k) eqn:?
    | context [match ?v with IndexJs => _ | _ => _ end] => destruct v
    | context [match ?j with
               | JNull => _ | JBool _ => _ | JNum _ => _
               | JStr _ => _ | JArr _ => _ | JObj _ => _
               end] => is_var j; destruct j
    | context [marshallable ?E ?x] => destruct (marshallable E x) eqn:?
    | context [own_property ?o ?k] => destruct (own_property o k) as [?|] eqn:?
    end); cbn in *.

Ltac unfold_handlers :=
  unfold user_pk, get_item, put_item, put_item_detached, store, derive,
    signing_secret, getParameterStore, todo_sk, uncaught, forwarded,
    error_handler, message, catch, bind, log, of_option, ret, throw, reply.

Section SplitFacts.
Variable sep : ascii.

(** Facts on [split]: a string without the separator is one component, and
    a separator ends the first component. *)
Lemma split_not_nil s : split sep s <> [].
Proof.
  destruct s as [|c s]; simpl; [discriminate|].
  destruct (Ascii.eqb c sep); [discriminate|].
  destruct (split sep s); discriminate.
Qed.

Lemma split_append a b :
  mentions sep a = false ->
  split sep (a +:+ String sep b) = a :: split sep b.
Proof.
  induction a as [|c a IH]; simpl; intros Hno.
  - now rewrite Ascii.eqb_refl.
  - apply orb_false_elim in Hno as [Hc Ha].
    rewrite Hc, (IH Ha). reflexivity.
Qed.

Lemma split_whole a : mentions sep a = false -> split sep a = [a].
Proof.
  induction a as [|c a IH]; simpl; intros Hno; [reflexivity|].
  apply orb_false_elim in Hno as [Hc Ha].
  now rewrite Hc, (IH Ha).
Qed.

Lemma split_head_sep b : split sep (String sep b) = EmptyString :: split sep b.
Proof. simpl. now rewrite Ascii.eqb_refl. Qed.

End SplitFacts.

Section MiddlewareFacts.
Context {Num : Type}.
Variable E : externals Num.
Variable w : world Num.
Variable v : variant.

(** With a token in second place, authMiddleware is the verification of it. *)
Lemma authMiddleware_token authHeader token :
  split " " authHeader !! 1%nat = Some token ->
  token <> EmptyString ->
  authMiddleware E w v (Some authHeader) = verify_step E w v token.
Proof.
  intros Hsplit Hne. unfold authMiddleware.
  destruct authHeader as [|c h]; [discriminate|].
  rewrite Hsplit. destruct token; [congruence|reflexivity].
Qed.

(** Without a token it answers at once, the state untouched. *)
Lemma authMiddleware_no_token authorization s :
  no_token authorization ->
  authMiddleware E w v authorization s = (s, Reply unauthorized).
Proof.
  intros H. destruct H as [|scheme Hs|scheme Hs|scheme rest Hs]; unfold authMiddleware.
  - reflexivity.
  - destruct scheme as [|c h]; [reflexivity|].
    now rewrite (split_whole _ _ Hs).
  - destruct (scheme +:+ " ") as [|c h] eqn:Hh; [reflexivity|].
    rewrite <- Hh. now rewrite (split_append _ _ EmptyString Hs).
  - destruct (scheme +:+ "  " +:+ rest) as [|c h] eqn:Hh; [reflexivity|].
    rewrite <- Hh.
    change (scheme +:+ "  " +:+ rest) with (scheme +:+ String " " (String " " rest)).
    rewrite (split_append _ _ _ Hs), split_head_sep. reflexivity.
Qed.

(** authMiddleware never throws and never answers anything but the one 401. *)
Lemma authMiddleware_outcomes authorization s :
  (exists s', authMiddleware E w v authorization s = (s', Reply unauthorized))
  \/ (exists s' user, authMiddleware E w v authorization s = (s', Go user)).
Proof.
  unfold authMiddleware.
  destruct authorization as [[|c h]|]; try (left; eexists; reflexivity).
  destruct (split " " (String c h) !! 1%nat) as [[|c' t]|]; try (left; eexists; reflexivity).
  unfold catch, bind, signing_secret, getParameterStore, log, of_option, ret, throw, reply.
  destruct v; simpl.
  - destruct (jwt_verify E _ _ _); [right|left]; eauto.
  - destruct (parameter w); simpl; [|left; eauto].
    destruct (jwt_verify E _ _ _); [right|left]; eauto.
  - destruct (parameter w); simpl; [|left; eauto].
    destruct (jwt_verify E _ _ _); [right|left]; eauto.
Qed.

(** authMiddleware leaves the table alone. *)
Lemma authMiddleware_table (authorization : option string) (s s' : hstate Num) (f : flow Num (claims Num)) :
  authMiddleware E w v authorization s = (s', f) -> st_table s' = st_table s.
Proof.
  unfold authMiddleware.
  destruct authorization as [[|c h]|]; try (now intros [= <- _]).
  destruct (split " " (String c h) !! 1%nat) as [[|c' t]|]; try (now intros [= <- _]).
  unfold_handlers.
  destruct v; cbn.
  - destruct (jwt_verify E _ _ _); now intros [= <- _].
  - destruct (parameter w); cbn; [|now intros [= <- _]].
    destruct (jwt_verify E _ _ _); now intros [= <- _].
  - destruct (parameter w); cbn; [|now intros [= <- _]].
    destruct (jwt_verify E _ _ _); now intros [= <- _].
Qed.

(** What authMiddleware adds to the log: the parameter fetch of the later
    revisions and the verification, and no store command. *)
Lemma authMiddleware_calls (authorization : option string) (s s' : hstate Num)
  (f : flow Num (claims Num)) :
  authMiddleware E w v authorization s = (s', f) ->
  exists added,
    st_calls s' = (st_calls s ++ added)%list
    /\ forall c, In c added -> c = GetParameter \/ exists token, c = JwtVerify token.
Proof.
  unfold authMiddleware.
  assert (Hnil : forall r, (s, @Reply Num (claims Num) r) = (s', f) ->
            exists added, st_calls s' = (st_calls s ++ added)%list
              /\ forall c, In c added ->
                   c = GetParameter \/ exists token, c = JwtVerify token).
  { intros r [= <- _]. exists []. split; [now rewrite app_nil_r|intros c []]. }
  destruct authorization as [[|c h]|]; try apply Hnil.
  destruct (split " " (String c h) !! 1%nat) as [[|c' t]|]; try apply Hnil.
  unfold_handlers. clear Hnil.
  destruct v; cbn; destruct (parameter w); cbn;
    try destruct (jwt_verify E _ _ _);
    intros [= <- _]; cbn; rewrite <- ?app_assoc;
    (eexists; split; [reflexivity|]);
    intros call Hin; simpl in Hin;
    repeat (destruct Hin as [<-|Hin]; [eauto|]); destruct Hin.
Qed.

End MiddlewareFacts.

(** *** The Auth Gate *)

Section AuthGate.
Context {Num : Type}.
Variable E : externals Num.
Variable w : world Num.
Variable v : variant.

(** C3.  When the authorization header is absent, or present without a token
    after the scheme word, authMiddleware answers 401 Unauthorized and leaves
    the log of external calls as it found it: no secret is fetched and no
    token is verified.  When the secret cannot be fetched the answer is the
    same 401 Unauthorized, which is also the answer to a token that
    jwt.verify refuses. *)
Theorem authMiddleware_unauthorized (authorization : option string) (s : hstate Num) :
  (no_token authorization ->
     authMiddleware E w v authorization s = (s, Reply unauthorized))
  /\ (v <> IndexJs -> parameter w = None ->
      (authMiddleware E w v authorization s).2 = Reply unauthorized)
  /\ (forall authHeader token,
        authorization = Some authHeader ->
        split " " authHeader !! 1%nat = Some token ->
        (forall secret, jwt_verify E token secret (now_ms w) = None) ->
        (authMiddleware E w v authorization s).2 = Reply unauthorized).
Proof.
  split; [apply authMiddleware_no_token|split].
  - intros Hv Hp.
    destruct (authMiddleware_outcomes E w v authorization s)
      as [[s' H]|[s' [user H]]]; [now rewrite H|].
    exfalso. revert H. unfold authMiddleware.
    destruct authorization as [[|c h]|]; try discriminate.
    destruct (split " " (String c h) !! 1%nat) as [[|c' t]|]; try discriminate.
    unfold catch, bind, signing_secret, getParameterStore, log, of_option.
    destruct v; [congruence| |]; rewrite Hp; discriminate.
  - intros authHeader token -> Hsplit Hbad.
    destruct (authMiddleware_outcomes E w v (Some authHeader) s)
      as [[s' H]|[s' [user H]]]; [now rewrite H|].
    exfalso. revert H. unfold authMiddleware.
    destruct authHeader as [|c h]; [discriminate|].
    rewrite Hsplit. destruct token as [|c' t]; [discriminate|].
    unfold catch, bind, signing_secret, getParameterStore, log, of_option, ret, throw.
    destruct v; simpl.
    + rewrite Hbad. discriminate.
    + destruct (parameter w); simpl; [rewrite Hbad|]; discriminate.
    + destruct (parameter w); simpl; [rewrite Hbad|]; discriminate.
Qed.

(** C10.  The scheme word is never examined: under any scheme word without
    a space, a header `<scheme> <token>` is handled as the verification of
    that token, hence exactly as the same token under `Bearer`. *)
Theorem authMiddleware_ignores_scheme (scheme token : string) :
  mentions " " scheme = false ->
  mentions " " token = false ->
  token <> EmptyString ->
  authMiddleware E w v (Some (scheme +:+ " " +:+ token)) = verify_step E w v token
  /\ authMiddleware E w v (Some (scheme +:+ " " +:+ token))
     = authMiddleware E w v (Some ("Bearer " +:+ token)).
Proof.
  intros Hs Ht Hne.
  assert (Hany : forall scheme', mentions " " scheme' = false ->
            authMiddleware E w v (Some (scheme' +:+ " " +:+ token))
            = verify_step E w v token).
  { intros scheme' Hs'. apply authMiddleware_token; [|assumption].
    change (scheme' +:+ " " +:+ token) with (scheme' +:+ String " " token).
    now rewrite (split_append _ _ _ Hs'), (split_whole _ _ Ht). }
  split; [now apply Hany|].
  rewrite (Hany scheme Hs). symmetry. now apply (Hany "Bearer").
Qed.

End AuthGate.

Lemma authMiddleware_unauthorized_witness :
  authMiddleware Sample.lib Sample.dark_world Part000 (Some "Bearer ") Sample.fresh
    = (Sample.fresh, Reply unauthorized)
  /\ (authMiddleware Sample.lib Sample.dark_world Part000 (Some "Bearer abc@s3cret")
        Sample.fresh).2 = Reply unauthorized
  /\ (authMiddleware Sample.lib Sample.empty_world Part000 (Some "Bearer forged")
        Sample.fresh).2 = Reply unauthorized.
Proof.
  split; [|split].
  - apply (proj1 (authMiddleware_unauthorized Sample.lib Sample.dark_world Part000
                    (Some "Bearer ") Sample.fresh)).
    apply (scheme_only "Bearer"). reflexivity.
  - apply (proj1 (proj2 (authMiddleware_unauthorized Sample.lib Sample.dark_world
                           Part000 (Some "Bearer abc@s3cret") Sample.fresh)));
      [discriminate|reflexivity].
  - apply (proj2 (proj2 (authMiddleware_unauthorized Sample.lib Sample.empty_world
                           Part000 (Some "Bearer forged") Sample.fresh))
             "Bearer forged" "forged"); [reflexivity|reflexivity|].
    intros secret. simpl.
    destruct secret as [|c secret]; reflexivity.
Defined.

Lemma authMiddleware_ignores_scheme_witness :
  authMiddleware Sample.lib Sample.empty_world Part000 (Some "Basic abc@s3cret")
  = authMiddleware Sample.lib Sample.empty_world Part000 (Some "Bearer abc@s3cret").
Proof.
  apply (authMiddleware_ignores_scheme Sample.lib Sample.empty_world Part000
           "Basic" "abc@s3cret"); [reflexivity|reflexivity|discriminate].
Defined.

(** *** POST /login *)

Section Login.
Context {Num : Type}.
Variable E : externals Num.

(** C8.  Whenever /login answers 200, the token it returns is the signature
    of a payload whose exp is Date.now() in whole seconds plus 43200: the
    twelve hours are a constant of the handler. *)
Theorem login_token_expiry (v : variant) (reqbody : json Num) (w : world Num)
  (r : response Num) :
  answer (login E v reqbody w) = Responded r ->
  status r = 200 ->
  exists secret mail,
    payload r =
      JsonBody (JObj [("token",
        JStr (jwt_sign E {| username := own_property reqbody "username";
                            email := mail;
                            exp := now_ms w / 1000 + 43200 |} secret))]).
Proof.
  unfold login, run, post_login. unfold_handlers.
  intros Hr Hs.
  crack Hr; try discriminate;
    injection Hr as <-; simpl in Hs; try discriminate; eauto.
Qed.

(** A login that answers 200 had a username that renders as a string: so
    has every token that /login issues. *)
Lemma login_username_renders (v : variant) (reqbody : json Num) (w : world Num)
  (r : response Num) :
  answer (login E v reqbody w) = Responded r ->
  status r = 200 ->
  exists name,
    render (num_to_string E) (own_property reqbody "username") = Some name.
Proof.
  unfold login, run, post_login. unfold_handlers.
  intros Hr Hs.
  destruct (render (num_to_string E) (own_property reqbody "username")) as [name|];
    [eauto|].
  cbn in Hr. destruct v; try discriminate.
  injection Hr as <-. discriminate.
Qed.

(** The two refusals of /login, revision by revision: a stored record whose
    hash differs from the derived one, and no record at all. *)
Lemma login_wrong_password (v : variant) (reqbody : json Num) (w : world Num)
  (name password salt : string) (userItem : item Num) :
  render (num_to_string E) (own_property reqbody "username") = Some name ->
  own_property reqbody "password" = Some (JStr password) ->
  get_item_ok w = true ->
  table w !! ("user#" +:+ name, "user") = Some userItem ->
  own_property (data userItem) "salt" = Some (JStr salt) ->
  differs (pbkdf2Sync E password salt) (own_property (data userItem) "password") = true ->
  answer (login E v reqbody w)
  = Responded (match v with
               | IndexJs | Part000 =>
                   {| status := 401; payload := TextBody invalid_credentials |}
               | Part001 => message 401 invalid_credentials
               end).
Proof.
  intros Hname Hpw Hget Hitem Hsalt Hdiff.
  unfold login, run, post_login. unfold_handlers.
  rewrite Hname, Hpw. cbn. rewrite Hget. cbn. rewrite Hitem. cbn.
  rewrite Hsalt. cbn. rewrite Hdiff. destruct v; reflexivity.
Qed.

Lemma login_unknown_user (v : variant) (reqbody : json Num) (w : world Num)
  (name : string) :
  render (num_to_string E) (own_property reqbody "username") = Some name ->
  get_item_ok w = true ->
  table w !! ("user#" +:+ name, "user") = None ->
  answer (login E v reqbody w) = Responded (message 401 invalid_credentials).
Proof.
  intros Hname Hget Hitem.
  unfold login, run, post_login. unfold_handlers.
  rewrite Hname. cbn. rewrite Hget. cbn. rewrite Hitem. reflexivity.
Qed.

(** In the third revision the wrong password of a stored user and an unknown
    user name receive the same answer. *)
Lemma login_part001_indistinguishable (reqbody reqbody' : json Num)
  (w w' : world Num) (name name' password salt : string) (userItem : item Num) :
  render (num_to_string E) (own_property reqbody "username") = Some name ->
  own_property reqbody "password" = Some (JStr password) ->
  get_item_ok w = true ->
  table w !! ("user#" +:+ name, "user") = Some userItem ->
  own_property (data userItem) "salt" = Some (JStr salt) ->
  differs (pbkdf2Sync E password salt) (own_property (data userItem) "password") = true ->
  render (num_to_string E) (own_property reqbody' "username") = Some name' ->
  get_item_ok w' = true ->
  table w' !! ("user#" +:+ name', "user") = None ->
  answer (login E Part001 reqbody w) = answer (login E Part001 reqbody' w').
Proof.
  intros. erewrite login_wrong_password, login_unknown_user by eassumption.
  reflexivity.
Qed.

(** C1, in the first two revisions: the wrong password of a stored user is
    answered with the bare text, an unknown user name with a JSON document;
    the status is 401 in both and the bodies differ. *)
Theorem login_wrong_password_distinguishable (v : variant)
  (reqbody reqbody' : json Num)
  (w w' : world Num) (name name' password salt : string) (userItem : item Num) :
  v <> Part001 ->
  render (num_to_string E) (own_property reqbody "username") = Some name ->
  own_property reqbody "password" = Some (JStr password) ->
  get_item_ok w = true ->
  table w !! ("user#" +:+ name, "user") = Some userItem ->
  own_property (data userItem) "salt" = Some (JStr salt) ->
  differs (pbkdf2Sync E password salt) (own_property (data userItem) "password") = true ->
  render (num_to_string E) (own_property reqbody' "username") = Some name' ->
  get_item_ok w' = true ->
  table w' !! ("user#" +:+ name', "user") = None ->
  answer (login E v reqbody w)
    = Responded {| status := 401; payload := TextBody invalid_credentials |}
  /\ answer (login E v reqbody' w')
    = Responded {| status := 401;
                   payload := JsonBody (JObj [("message", JStr invalid_credentials)]) |}
  /\ answer (login E v reqbody w) <> answer (login E v reqbody' w').
Proof.
  intros Hv **.
  erewrite login_wrong_password, login_unknown_user by eassumption.
  destruct v; [| |congruence]; repeat split; discriminate.
Qed.

End Login.

Lemma login_token_expiry_witness :
  exists secret mail,
    JsonBody (JObj [("token", JStr "abc@s3cret")] : json Z) =
      JsonBody (JObj [("token",
        JStr (jwt_sign Sample.lib
                {| username := Some (JStr "abc"); email := mail;
                   exp := 1700000000 + 43200 |} secret))]).
Proof.
  exact (login_token_expiry Sample.lib Part000 Sample.abc_registration
           Sample.abc_world
           {| status := 200;
              payload := JsonBody (JObj [("token", JStr "abc@s3cret")] : json Z) |}
           eq_refl eq_refl).
Defined.

Lemma login_wrong_password_distinguishable_witness :
  let wrong : json Z := JObj [("username", JStr "abc"); ("password", JStr "wrong!")] in
  let unknown : json Z := JObj [("username", JStr "nobody"); ("password", JStr "wrong!")] in
  answer (login Sample.lib Part000 wrong Sample.abc_world)
  <> answer (login Sample.lib Part000 unknown Sample.abc_world).
Proof.
  intros wrong unknown.
  refine (proj2 (proj2 (login_wrong_password_distinguishable Sample.lib Part000
            wrong unknown Sample.abc_world Sample.abc_world
            "abc" "nobody" "wrong!" "0a1b" Sample.abc_user _ _ _ _ _ _ _ _ _ _)));
    try reflexivity; discriminate.
Defined.

(** *** POST /register *)

Section Registration.
Context {Num : Type}.
Variable E : externals Num.

(** The checks of /register make no external call and leave the state as
    it is. *)
Lemma check_field_pure (reqbody : json Num) (field : string) (s : hstate Num) :
  exists f, check_field E reqbody field s = (s, f).
Proof.
  unfold check_field, bind, of_option, ret, throw, reply.
  destruct (own_property reqbody "hasOwnProperty"); [eauto|].
  destruct (own_property reqbody field) as [val|]; [|eauto].
  destruct (too_short E val) as [[|]|]; eauto.
Qed.

Lemma for_each_check_pure (reqbody : json Num) (fields : list string) (s : hstate Num) :
  exists f, for_each fields (check_field E reqbody) s = (s, f).
Proof.
  induction fields as [|field rest IH]; simpl; [unfold ret; eauto|].
  unfold bind. destruct (check_field_pure reqbody field s) as [f ->].
  destruct f; eauto.
Qed.

Lemma validation_pure (v : variant) (reqbody : json Num) (s : hstate Num) :
  exists f, validation E v reqbody s = (s, f).
Proof.
  unfold validation, validateEmail, bind, of_option, ret, throw, reply.
  destruct (validates v).
  - destruct (for_each_check_pure reqbody required s) as [f ->].
    destruct f; eauto.
    destruct v; eauto.
    destruct (render _ _); eauto. destruct (email_match E s0); eauto.
  - destruct v; eauto.
    destruct (render _ _); eauto. destruct (email_match E s0); eauto.
Qed.

(** The loop stops at the first defective field and names it. *)
Lemma for_each_defect (reqbody : json Num) (fields : list string) (s : hstate Num) :
  own_property reqbody "hasOwnProperty" = None ->
  (forall field val, In field fields ->
     own_property reqbody field = Some val -> too_short E val <> None) ->
  (exists field, In field fields /\ defective E reqbody field) ->
  exists field,
    In field fields /\ defective E reqbody field
    /\ for_each fields (check_field E reqbody) s
       = (s, Reply (message 400 (complaint reqbody field))).
Proof.
  intros Hown. induction fields as [|field rest IH]; intros Hdef [bad [Hin Hbad]].
  - destruct Hin.
  - simpl. unfold bind, check_field at 1. rewrite Hown.
    unfold defective, complaint in *.
    destruct (own_property reqbody field) as [val|] eqn:Hfield.
    + specialize (Hdef field val (or_introl eq_refl) Hfield) as Hval.
      unfold bind, of_option, ret, throw, reply.
      destruct (too_short E val) as [[|]|] eqn:Hshort; [| |congruence].
      * exists field. rewrite Hfield. split; [now left|]. split; [assumption|reflexivity].
      * destruct IH as [field' [Hin' [Hbad' Hrun]]].
        { intros f' val' Hf'. apply Hdef. now right. }
        { exists bad. split; [|assumption].
          destruct Hin as [<-|Hin]; [|assumption].
          rewrite Hfield in Hbad. congruence. }
        exists field'. split; [now right|]. split; assumption.
    + exists field. rewrite Hfield. split; [now left|]. split; [exact I|reflexivity].
Qed.

(** C4, as the second and third revisions have it: when the loop over the
    required fields runs to a verdict and some required field is missing or
    too short, /register answers 400 with the message that names such a
    field, the log of external calls is empty and the table is untouched. *)
Theorem register_validation_precedes_store (v : variant) (reqbody : json Num)
  (w : world Num) :
  validates v = true ->
  checkable E reqbody ->
  (exists field, In field required /\ defective E reqbody field) ->
  refused_before_store E w v reqbody.
Proof.
  intros Hv [Hown Hlen] Hbad.
  destruct (for_each_defect reqbody required
              {| st_table := table w; st_calls := [] |} Hown Hlen Hbad)
    as [field [Hin [Hdef Hrun]]].
  exists field. split; [assumption|]. split; [assumption|].
  unfold register, run, post_register, validation, bind.
  rewrite Hv, Hrun. repeat split.
Qed.


(** A registration under a stored name writes nothing. *)
Lemma register_existing (v : variant) (reqbody : json Num) (w : world Num)
  (name : string) (existing : item Num) :
  render (num_to_string E) (own_property reqbody "username") = Some name ->
  table w !! ("user#" +:+ name, "user") = Some existing ->
  table_after (register E v reqbody w) = table w
  /\ (forall pk sk, ~ In (PutItem pk sk) (calls (register E v reqbody w)))
  /\ (get_item_ok w = true ->
      (forall s, validation E v reqbody s = (s, Go tt)) ->
      answer (register E v reqbody w)
      = Responded (message 400 "Username already taken")).
Proof.
  intros Hname Hitem.
  unfold register, run, post_register, registration. unfold_handlers.
  destruct (validation_pure v reqbody {| st_table := table w; st_calls := [] |})
    as [f Hf].
  rewrite Hf. destruct f as [[]|r|e].
  - rewrite Hname. cbn.
    destruct (get_item_ok w); cbn.
    + rewrite Hitem. cbn. split; [reflexivity|]. split; [|reflexivity].
      intros pk sk [H|[]]. discriminate.
    + split; [reflexivity|]. split; [|discriminate].
      intros pk sk [H|[]]. discriminate.
  - cbn. split; [reflexivity|]. split; [intros pk sk []|].
    intros _ Hpass. rewrite Hpass in Hf. discriminate.
  - cbn. split; [reflexivity|]. split; [intros pk sk []|].
    intros _ Hpass. rewrite Hpass in Hf. discriminate.
Qed.

(** The checks answer with 400 only. *)
Lemma for_each_check_status (reqbody : json Num) (fields : list string)
  (s s' : hstate Num) (r : response Num) :
  for_each fields (check_field E reqbody) s = (s', Reply r) -> status r = 400.
Proof.
  revert s. induction fields as [|field rest IH]; simpl; intros s; [discriminate|].
  unfold bind. destruct (check_field E reqbody field s) as [s1 [[]|r1|e1]] eqn:Hc;
    [apply IH| |discriminate].
  intros [= _ <-]. revert Hc.
  unfold check_field, bind, of_option, ret, throw, reply.
  destruct (own_property reqbody "hasOwnProperty"); [discriminate|].
  destruct (own_property reqbody field) as [val|]; [|now intros [= _ <-]].
  destruct (too_short E val) as [[|]|]; try discriminate. now intros [= _ <-].
Qed.

Lemma validation_status (v : variant) (reqbody : json Num)
  (s s' : hstate Num) (r : response Num) :
  validation E v reqbody s = (s', Reply r) -> status r = 400.
Proof.
  unfold validation, validateEmail, bind, of_option, ret, throw, reply.
  destruct (validates v).
  - destruct (for_each required (check_field E reqbody) s) as [s1 [[]|r1|e1]] eqn:Hc.
    + destruct v; try discriminate.
      destruct (render _ _); [|discriminate].
      destruct (email_match E _); [discriminate|]. now intros [= _ <-].
    + intros [= _ <-]. eapply for_each_check_status, Hc.
    + discriminate.
  - destruct v; try discriminate.
    destruct (render _ _); [|discriminate].
    destruct (email_match E _); [discriminate|]. now intros [= _ <-].
Qed.

(** A registration that answers 201 has stored a record under its name. *)
Lemma register_success_stores (v : variant) (reqbody : json Num) (w : world Num) :
  answer (register E v reqbody w)
  = Responded (message 201 "User registered successfully") ->
  exists name stored,
    render (num_to_string E) (own_property reqbody "username") = Some name
    /\ table_after (register E v reqbody w) !! ("user#" +:+ name, "user") = Some stored.
Proof.
  unfold register, run, post_register, registration, sendWelcomeEmail. unfold_handlers.
  destruct (validation_pure v reqbody {| st_table := table w; st_calls := [] |})
    as [f Hf].
  rewrite Hf. destruct f as [[]|r|e].
  - clear Hf. intros H.
    crack H; try discriminate; cbn; eexists _, _;
      (split; [reflexivity|apply lookup_insert_eq]).
  - apply validation_status in Hf. cbn. intros [= ->]. discriminate.
  - destruct v; discriminate.
Qed.

(** C5, as the code has it: after a registration that answered 201, a second
    one with the same username writes nothing, so the stored record stays as
    it is, whatever its other fields; and it answers 400 `Username already
    taken` when its lookup resolves and its fields pass the checks that the
    handler runs first. *)
Theorem register_twice (v : variant) (first second : json Num) (w w' : world Num) :
  answer (register E v first w)
  = Responded (message 201 "User registered successfully") ->
  own_property second "username" = own_property first "username" ->
  table w' = table_after (register E v first w) ->
  table_after (register E v second w') = table w'
  /\ (forall pk sk, ~ In (PutItem pk sk) (calls (register E v second w')))
  /\ (get_item_ok w' = true ->
      (forall s, validation E v second s = (s, Go tt)) ->
      answer (register E v second w')
      = Responded (message 400 "Username already taken")).
Proof.
  intros Hfirst Hsame Htable.
  destruct (register_success_stores v first w Hfirst) as [name [stored [Hname Hstored]]].
  apply (register_existing v second w' name stored).
  - now rewrite Hsame.
  - now rewrite Htable.
Qed.

(** A string of three characters or more passes its turn of the loop. *)
Lemma check_field_accepts (reqbody : json Num) (field text : string)
  (s : hstate Num) :
  own_property reqbody "hasOwnProperty" = None ->
  own_property reqbody field = Some (JStr text) ->
  (3 <= String.length text)%nat ->
  check_field E reqbody field s = (s, Go tt).
Proof.
  intros Hown Hfield Hlen. unfold check_field, bind, of_option, ret.
  rewrite Hown, Hfield. simpl.
  destruct (Nat.ltb_spec (String.length text) 3); [lia|reflexivity].
Qed.

(** Strings of three characters or more pass the checks. *)
Lemma validation_accepts (v : variant) (reqbody : json Num) :
  own_property reqbody "hasOwnProperty" = None ->
  (forall field, In field required ->
     exists text, own_property reqbody field = Some (JStr text)
                  /\ (3 <= String.length text)%nat) ->
  (forall text, own_property reqbody "email" = Some (JStr text) ->
                email_match E text = true) ->
  forall s, validation E v reqbody s = (s, Go tt).
Proof.
  intros Hown Hfields Hmail s.
  assert (Hloop : forall fields, (forall f, In f fields -> In f required) ->
            for_each fields (check_field E reqbody) s = (s, Go tt)).
  { induction fields as [|field rest IH]; intros Hin; [reflexivity|].
    destruct (Hfields field) as [text [Hfield Hlen]]; [apply Hin; now left|].
    simpl. unfold bind. rewrite (check_field_accepts _ _ _ _ Hown Hfield Hlen).
    apply IH. intros f Hf. apply Hin. now right. }
  destruct (Hfields "email") as [text [Htext _]]; [simpl; tauto|].
  pose proof (Hloop required (fun f H => H)) as Hrun.
  unfold validation, validateEmail, bind, of_option.
  destruct v; cbv beta iota delta [validates]; rewrite ?Hrun; cbv beta iota;
    rewrite ?Htext; try reflexivity.
  simpl. now rewrite (Hmail text Htext).
Qed.

End Registration.

Lemma register_validation_precedes_store_witness :
  refused_before_store Sample.lib Sample.empty_world Part000
    (JObj [("username", JStr "ab")]).
Proof.
  apply register_validation_precedes_store.
  - reflexivity.
  - split; [reflexivity|].
    intros field val Hin Hval. simpl in Hin.
    destruct Hin as [<-|[<-|[<-|[<-|[]]]]]; simpl in Hval;
      inversion Hval; discriminate.
  - exists "username". split; [now left|reflexivity].
Defined.

(** C4 fails in src/src/index.js, which has no validation: a body without
    any field sends the handler to the store. *)
Lemma register_indexjs_reads_store :
  defective Sample.lib (JObj []) "username"
  /\ calls (register Sample.lib IndexJs (JObj []) Sample.empty_world)
     = [GetItem "user#undefined" "user"]
  /\ ~ refused_before_store Sample.lib Sample.empty_world IndexJs (JObj []).
Proof.
  split; [exact I|]. split; [reflexivity|].
  intros [field [_ [_ [_ [Hcalls _]]]]]. discriminate Hcalls.
Qed.

(** A null field stops the loop with a TypeError, here on the first field of
    a body that lacks the other three. *)
Example register_null_field_throws :
  answer (register Sample.lib Part000 (JObj [("username", JNull)]) Sample.empty_world)
  = Unanswered TypeError
  /\ answer (register Sample.lib Part001 (JObj [("username", JNull)]) Sample.empty_world)
     = Responded (message 500 "Error").
Proof. split; reflexivity. Qed.

Lemma register_twice_witness :
  let first := register Sample.lib Part000 Sample.abc_registration Sample.empty_world in
  answer (register Sample.lib Part000 Sample.abc_registration
            (Sample.world_of (table_after first) true))
  = Responded (message 400 "Username already taken").
Proof.
  intros first.
  apply (proj2 (proj2 (register_twice Sample.lib Part000 Sample.abc_registration
                         Sample.abc_registration Sample.empty_world
                         (Sample.world_of (table_after first) true)
                         eq_refl eq_refl eq_refl)));
    [reflexivity|intros s; reflexivity].
Defined.

(** C5 fails for a second registration that does not pass the checks: they
    run before the lookup, and their message is the answer. *)
Lemma register_twice_short_password :
  let first := register Sample.lib Part000 Sample.abc_registration Sample.empty_world in
  let second :=
    register Sample.lib Part000
      (JObj [("username", JStr "abc"); ("password", JStr "ab");
             ("fullname", JStr "Abc Def"); ("email", JStr "a@b.com")])
      (Sample.world_of (table_after first) true) in
  answer first = Responded (message 201 "User registered successfully")
  /\ answer second
     = Responded (message 400 ("Value of " +:+ dquote +:+ "password" +:+ dquote
                               +:+ " is too short"))
  /\ answer second <> Responded (message 400 "Username already taken").
Proof.
  split; [reflexivity|]. split; [reflexivity|]. discriminate.
Qed.

(** *** What a history without a PUT leaves under a todo key *)

Section Frames.
Context {Num : Type}.
Variable E : externals Num.
Variable v : variant.

(** Todo keys tell ids and user names apart, and are no user key. *)
Lemma todo_key_inj (id id' name name' : string) :
  todo_key v id' name' = todo_key v id name -> id' = id /\ name' = name.
Proof.
  unfold todo_key. destruct v; intros [= Hid Hname];
    apply (inj (String.app _)) in Hid, Hname; now split.
Qed.

Lemma todo_key_not_user (id name pk : string) : todo_key v id name <> (pk, "user").
Proof. unfold todo_key. destruct v; intros [= _ H]; cbv in H; discriminate. Qed.

(** /register writes under a user key only; /login, /protected and
    GET /todos/:id write nothing; PUT /todos/:id writes under its own key. *)
Lemma register_frame (reqbody : json Num) (w : world Num) (pk sk : string) :
  sk <> "user" ->
  table_after (register E v reqbody w) !! (pk, sk) = table w !! (pk, sk).
Proof.
  intros Hsk. remember (register E v reqbody w) as r eqn:Hr. revert Hr.
  unfold register, run, post_register, registration, sendWelcomeEmail. unfold_handlers.
  destruct (validation_pure E v reqbody {| st_table := table w; st_calls := [] |})
    as [f ->].
  destruct f as [[]|r'|e]; [| intros ->; reflexivity..].
  intros Hr. crack Hr; subst r; cbn; try reflexivity;
    apply lookup_insert_ne; congruence.
Qed.

Lemma login_frame (reqbody : json Num) (w : world Num) :
  table_after (login E v reqbody w) = table w.
Proof.
  remember (login E v reqbody w) as r eqn:Hr. revert Hr.
  unfold login, run, post_login. unfold_handlers.
  intros Hr. crack Hr; subst r; reflexivity.
Qed.


Lemma protected_frame (authorization : option string) (w : world Num) :
  table_after (protected E v authorization w) = table w.
Proof.
  unfold protected, run, bind.
  destruct (authMiddleware E w v authorization {| st_table := table w; st_calls := [] |})
    as [s f] eqn:Hauth.
  apply authMiddleware_table in Hauth. cbn in Hauth.
  destruct f as [user|r|e]; [|assumption..].
  unfold get_protected. unfold_handlers.
  destruct (render (num_to_string E) (username user)); assumption.
Qed.

Lemma todos_get_frame (authorization : option string) (id : string) (w : world Num) :
  table_after (todos_get E v authorization id w) = table w.
Proof.
  unfold todos_get, run, bind.
  destruct (authMiddleware E w v authorization {| st_table := table w; st_calls := [] |})
    as [s f] eqn:Hauth.
  apply authMiddleware_table in Hauth. cbn in Hauth.
  destruct f as [user|r|e]; [|assumption..].
  unfold get_todos. destruct id as [|c id]; [assumption|].
  unfold_handlers.
  destruct (render (num_to_string E) (username user)); cbn; [|assumption].
  destruct (get_item_ok w); assumption.
Qed.

Lemma todos_put_frame (authorization : option string) (id' id name : string)
  (reqbody : json Num) (w : world Num) :
  ~ puts_todo E v id name (TodosPut authorization id' reqbody) w ->
  table_after (todos_put E v authorization id' reqbody w) !! todo_key v id name
  = table w !! todo_key v id name.
Proof.
  intros Hquiet. unfold todos_put, run, bind.
  destruct (authMiddleware E w v authorization {| st_table := table w; st_calls := [] |})
    as [s f] eqn:Hauth.
  pose proof (authMiddleware_table _ _ _ _ _ _ _ Hauth) as Htable. cbn in Htable.
  destruct f as [user|r|e]; [|now rewrite <- Htable..].
  unfold put_todos. destruct id' as [|c id']; [now rewrite <- Htable|].
  unfold_handlers.
  destruct (render (num_to_string E) (username user)) as [name'|] eqn:Hname;
    cbn; [|now rewrite <- Htable].
  destruct (marshallable E reqbody);
    [|destruct v; cbn; now rewrite <- Htable].
  assert (Hkey : todo_key v (String c id') name' <> todo_key v id name).
  { intros Hkey. apply todo_key_inj in Hkey as [Hid ->].
    apply Hquiet. split; [assumption|]. exists user. split; [|assumption].
    exists s. exact Hauth. }
  unfold todo_key in Hkey.
  destruct v; cbn; (destruct (put_item_ok w); cbn; [|now rewrite <- Htable]);
    rewrite Htable; now apply lookup_insert_ne.
Qed.

Lemma serve_frame (id name : string) (req : request Num) (w : world Num) :
  ~ puts_todo E v id name req w ->
  table_after (serve E v req w) !! todo_key v id name = table w !! todo_key v id name.
Proof.
  destruct req as [reqbody|reqbody|authorization|authorization id'|authorization id' reqbody];
    intros Hquiet; simpl.
  - unfold todo_key. apply register_frame. destruct v; intros H; cbv in H; discriminate.
  - now rewrite login_frame.
  - now rewrite protected_frame.
  - now rewrite todos_get_frame.
  - now apply todos_put_frame.
Qed.

(** Under the key of a pair, a history without a PUT for the pair leaves
    what it found. *)
Lemma replay_without_put (id name : string) (history : list (request Num * world Num))
  (t : gmap (string * string) (item Num)) :
  without_put E v id name t history ->
  replay E v t history !! todo_key v id name = t !! todo_key v id name.
Proof.
  revert t. induction history as [|[req w] rest IH]; intros t; simpl; [reflexivity|].
  intros [Hquiet Hrest]. rewrite (IH _ Hrest).
  now rewrite (serve_frame _ _ _ _ Hquiet).
Qed.

End Frames.

(** *** The todo routes *)

Section Todos.
Context {Num : Type}.
Variable E : externals Num.

(** C9, as the code has it.  An authenticated PUT /todos/:id with a
    non-empty id and a body that marshall accepts answers 200 `Todo
    successfully added` in every world, whether the PutItem command resolves
    or not: the command is started, after the calls of authMiddleware, and
    the handler does not wait for it.  When the command resolves the item is
    in the table; when it is rejected the table is what it was, under the
    same 200. *)
Theorem todos_put_answers_before_write (v : variant) (authorization : option string)
  (user : claims Num) (name id : string) (reqbody : json Num) (w : world Num) :
  authenticated E w v authorization user ->
  render (num_to_string E) (username user) = Some name ->
  id <> EmptyString ->
  marshallable E reqbody = true ->
  answer (todos_put E v authorization id reqbody w)
    = Responded (message 200 "Todo successfully added")
  /\ (exists gate,
        calls (todos_put E v authorization id reqbody w)
        = (gate ++ [PutItem (todo_key v id name).1 (todo_key v id name).2])%list
        /\ forall c, In c gate -> c = GetParameter \/ exists token, c = JwtVerify token)
  /\ table_after (todos_put E v authorization id reqbody w)
     = if put_item_ok w
       then <[todo_key v id name := todo_record v w reqbody]> (table w)
       else table w.
Proof.
  intros [s Hs] Hname Hid Hbody.
  pose proof (authMiddleware_table _ _ _ _ _ _ _ Hs) as Htable. cbn in Htable.
  destruct (authMiddleware_calls _ _ _ _ _ _ _ Hs) as [gate [Hgate Hcalls]].
  cbn in Hgate.
  destruct id as [|c id]; [congruence|].
  unfold todos_put, run, put_todos, todo_key, todo_record. unfold_handlers.
  rewrite Hs, Hname. cbn. rewrite Hbody.
  destruct v; cbn; destruct (put_item_ok w); cbn; rewrite Hgate, Htable;
    (split; [reflexivity|]); (split; [|reflexivity]);
    exists gate; (split; [reflexivity|assumption]).
Qed.

(** C7, as the code has it: for a user and a non-empty id, GET /todos/:id
    answers the empty array when its lookup resolves and the requests served
    so far, starting from a table without an item for the pair, held no PUT
    for the pair; and after a PUT /todos/:id of a payload whose PutItem
    command was started and resolved, the GET of the same user answers that
    payload. *)
Theorem todos_get_after_put (v : variant) (id name : string) (reqbody : json Num) :
  id <> EmptyString ->
  (forall t0 history (w : world Num) authorization user,
     t0 !! todo_key v id name = None ->
     without_put E v id name t0 history ->
     table w = replay E v t0 history ->
     authenticated E w v authorization user ->
     render (num_to_string E) (username user) = Some name ->
     get_item_ok w = true ->
     answer (todos_get E v authorization id w)
     = Responded {| status := 200; payload := JsonBody (JArr []) |})
  /\ (forall (w w' : world Num) authorization authorization' user user',
     authenticated E w v authorization user ->
     render (num_to_string E) (username user) = Some name ->
     In (PutItem (todo_key v id name).1 (todo_key v id name).2)
        (calls (todos_put E v authorization id reqbody w)) ->
     put_item_ok w = true ->
     table w' = table_after (todos_put E v authorization id reqbody w) ->
     authenticated E w' v authorization' user' ->
     render (num_to_string E) (username user') = Some name ->
     get_item_ok w' = true ->
     answer (todos_get E v authorization' id w')
     = Responded {| status := 200; payload := JsonBody reqbody |}).
Proof.
  intros Hid. destruct id as [|c id]; [congruence|]. split.
  - intros t0 history w authorization user Hnone Hquiet Hw [s Hs] Hname Hget.
    pose proof (authMiddleware_table _ _ _ _ _ _ _ Hs) as Htable. cbn in Htable.
    unfold todos_get, run, get_todos. unfold_handlers.
    rewrite Hs, Hname. cbn. rewrite Hget. cbn. rewrite Htable, Hw.
    pose proof (replay_without_put E v _ _ _ _ Hquiet) as Hkey.
    rewrite Hnone in Hkey. unfold todo_key in Hkey.
    destruct v; rewrite Hkey; reflexivity.
  - intros w w' authorization authorization' user user'
      [s Hs] Hname Hissued Hput Hw' [s' Hs'] Hname' Hget.
    pose proof (authMiddleware_table _ _ _ _ _ _ _ Hs) as Htable. cbn in Htable.
    pose proof (authMiddleware_table _ _ _ _ _ _ _ Hs') as Htable'. cbn in Htable'.
    destruct (authMiddleware_calls _ _ _ _ _ _ _ Hs) as [gate [Hgate Hcalls]].
    cbn in Hgate.
    assert (Hbody : marshallable E reqbody = true).
    { destruct (marshallable E reqbody) eqn:Hm; [reflexivity|]. exfalso.
      revert Hissued. unfold todos_put, run, put_todos. unfold_handlers.
      rewrite Hs, Hname. cbn. rewrite Hm.
      destruct v; cbn; rewrite Hgate; intros Hin;
        destruct (Hcalls _ Hin) as [H|[token H]]; discriminate. }
    unfold todos_get, run, get_todos. unfold_handlers.
    rewrite Hs', Hname'. cbn. rewrite Hget. cbn. rewrite Htable', Hw'.
    unfold todos_put, run, put_todos. unfold_handlers.
    rewrite Hs, Hname. cbn. rewrite Hbody.
    destruct v; cbn; rewrite Hput; cbn; rewrite Htable, lookup_insert_eq;
      reflexivity.
Qed.

End Todos.

Lemma todos_put_answers_before_write_witness :
  let put := todos_put Sample.lib Part000 (Some "Bearer abc@s3cret") "1"
               (JObj [("title", JStr "milk")]) (Sample.world_of ∅ false) in
  answer put = Responded (message 200 "Todo successfully added")
  /\ (exists gate,
        calls put = (gate ++ [PutItem "todo#1" "todo-abc"])%list
        /\ forall c, In c gate -> c = GetParameter \/ exists token, c = JwtVerify token)
  /\ table_after put = ∅.
Proof.
  refine (todos_put_answers_before_write Sample.lib Part000
            (Some "Bearer abc@s3cret") _ "abc" "1" (JObj [("title", JStr "milk")])
            (Sample.world_of ∅ false) _ _ _ _).
  - eexists. reflexivity.
  - reflexivity.
  - discriminate.
  - reflexivity.
Defined.

(** C9 fails for a body that marshall refuses: marshall throws before the
    command is sent, and the request is answered 500 with no PutItem. *)
Lemma todos_put_refused_by_marshall :
  let put := todos_put Sample.lib Part000 (Some "Bearer abc@s3cret") "1"
               Sample.big_number Sample.empty_world in
  answer put = Responded (message 500 "Error")
  /\ calls put = [GetParameter; JwtVerify "abc@s3cret"]
  /\ answer put <> Responded (message 200 "Todo successfully added").
Proof.
  split; [reflexivity|]. split; [reflexivity|]. discriminate.
Qed.

Lemma todos_get_after_put_witness :
  let put := todos_put Sample.lib Part000 (Some "Bearer abc@s3cret") "1"
               (JObj [("title", JStr "milk")]) Sample.empty_world in
  answer (todos_get Sample.lib Part000 (Some "Bearer abc@s3cret") "1"
            (Sample.world_of
               (replay Sample.lib Part000 ∅
                  [(Register Sample.abc_registration, Sample.empty_world);
                   (TodosPut (Some "Bearer abc@s3cret") "2"
                      (JObj [("title", JStr "eggs")]), Sample.empty_world)])
               true))
  = Responded {| status := 200; payload := JsonBody (JArr []) |}
  /\ answer (todos_get Sample.lib Part000 (Some "Basic abc@s3cret") "1"
               (Sample.world_of (table_after put) true))
  = Responded {| status := 200; payload := JsonBody (JObj [("title", JStr "milk")]) |}.
Proof.
  intros put.
  destruct (todos_get_after_put Sample.lib Part000 "1" "abc"
              (JObj [("title", JStr "milk")])) as [Hempty Hround]; [discriminate|].
  split.
  - refine (Hempty ∅
              [(Register Sample.abc_registration, Sample.empty_world);
               (TodosPut (Some "Bearer abc@s3cret") "2"
                  (JObj [("title", JStr "eggs")]), Sample.empty_world)]
              _ (Some "Bearer abc@s3cret") _ _ _ _ _ _ _).
    + reflexivity.
    + simpl. split; [tauto|]. split; [|exact I].
      intros [Hid _]. discriminate Hid.
    + reflexivity.
    + eexists. reflexivity.
    + reflexivity.
    + reflexivity.
  - refine (Hround Sample.empty_world (Sample.world_of (table_after put) true)
              (Some "Bearer abc@s3cret") (Some "Basic abc@s3cret") _ _ _ _ _ _ _ _ _ _).
    + eexists. reflexivity.
    + reflexivity.
    + simpl. tauto.
    + reflexivity.
    + reflexivity.
    + eexists. reflexivity.
    + reflexivity.
    + reflexivity.
Defined.

(** C7 fails when the PutItem command of the PUT is rejected: the PUT has
    answered 200 all the same, and the GET that follows finds nothing. *)
Lemma todos_put_rejected_write_lost :
  let milk : json Z := JObj [("title", JStr "milk")] in
  let put := todos_put Sample.lib Part000 (Some "Bearer abc@s3cret") "1" milk
               (Sample.world_of ∅ false) in
  let get := todos_get Sample.lib Part000 (Some "Bearer abc@s3cret") "1"
               (Sample.world_of (table_after put) true) in
  answer put = Responded (message 200 "Todo successfully added")
  /\ answer get = Responded {| status := 200; payload := JsonBody (JArr []) |}
  /\ answer get <> Responded {| status := 200; payload := JsonBody milk |}.
Proof.
  split; [reflexivity|]. split; [reflexivity|]. discriminate.
Qed.
(** *** The token service *)

Section Tokens.
Context {Num : Type}.
Variable mac : string -> string -> string.
Variable encode : TokenService.IdentityClaim (json Num) -> string.
Variable decode : string -> option (TokenService.IdentityClaim (json Num)).

(** The verifier sees a well-formed token as its two parts. *)
Lemma verify_parts (signed tag secret : string) (now : Z) :
  mentions "." signed = false ->
  mentions "." tag = false ->
  TokenService.verify mac decode (signed +:+ "." +:+ tag) secret now
  = if String.eqb tag (mac secret signed)
    then match decode signed with
         | Some c => if TokenService.expiresAt c <? now then None else Some c
         | None => None
         end
    else None.
Proof.
  intros Hsigned Htag. unfold TokenService.verify.
  change (signed +:+ "." +:+ tag) with (signed +:+ String "." tag).
  now rewrite (split_append _ _ _ Hsigned), (split_whole _ _ Htag).
Qed.

(** C2.  A token issued for a subject and auxiliary claims and verified with
    the same secret at a time strictly before its expiry is accepted, and the
    claim it yields carries that subject, those auxiliary claims and the
    expiry `issued + ttlSeconds`; the serialisation is assumed to round-trip
    on this claim and, like the tag, to stay clear of the separator. *)
Theorem verify_issue_roundtrip (subject : string) (aux : gmap string (json Num))
  (secret : string) (ttlSeconds issued now : Z) :
  let c := {| TokenService.subjectIdentifier := subject;
              TokenService.auxiliaryClaims := aux;
              TokenService.expiresAt := issued + ttlSeconds |} in
  decode (encode c) = Some c ->
  mentions "." (encode c) = false ->
  mentions "." (mac secret (encode c)) = false ->
  now < issued + ttlSeconds ->
  exists c',
    TokenService.verify mac decode (TokenService.issue mac encode subject aux secret ttlSeconds issued) secret now = Some c'
    /\ TokenService.subjectIdentifier c' = subject
    /\ TokenService.auxiliaryClaims c' = aux
    /\ TokenService.expiresAt c' = issued + ttlSeconds.
Proof.
  intros c Hcodec Hsigned Htag Hnow. exists c.
  split; [|repeat split].
  unfold TokenService.issue, TokenService.sign. fold c.
  rewrite (verify_parts _ _ _ _ Hsigned Htag), String.eqb_refl, Hcodec.
  destruct (Z.ltb_spec (TokenService.expiresAt c) now) as [Hlt|]; [|reflexivity].
  simpl in Hlt. lia.
Qed.

(** C6.  Verification fails on a token whose payload was replaced after
    signing, on a token signed with another secret, and on a token past its
    expiry, the signing scheme giving different tags in the first two cases;
    and whatever makes verification fail, authMiddleware answers the one
    401 Unauthorized. *)
Theorem verify_rejects (E : externals Num) (c : TokenService.IdentityClaim (json Num))
  (secret : string) :
  mentions "." (mac secret (encode c)) = false ->
  (forall c' now,
     mentions "." (encode c') = false ->
     mac secret (encode c') <> mac secret (encode c) ->
     TokenService.verify mac decode (encode c' +:+ "." +:+ mac secret (encode c)) secret now = None)
  /\ (forall secret' now,
     mentions "." (encode c) = false ->
     mac secret' (encode c) <> mac secret (encode c) ->
     TokenService.verify mac decode (TokenService.sign mac encode c secret) secret' now = None)
  /\ (forall now,
     mentions "." (encode c) = false ->
     decode (encode c) = Some c ->
     TokenService.expiresAt c < now ->
     TokenService.verify mac decode (TokenService.sign mac encode c secret) secret now = None)
  /\ (forall (w : world Num) (v : variant) authHeader token s,
     split " " authHeader !! 1%nat = Some token ->
     (forall secret', current_secret w v = Some secret' ->
                      TokenService.verify mac decode token secret' (now_ms w / 1000) = None) ->
     (authMiddleware (verify_with E mac decode) w v (Some authHeader) s).2
     = Reply unauthorized).
Proof.
  intros Htag. repeat split.
  - intros c' now Hsigned Hneq.
    rewrite (verify_parts _ _ _ _ Hsigned Htag).
    destruct (String.eqb_spec (mac secret (encode c)) (mac secret (encode c')));
      [congruence|reflexivity].
  - intros secret' now Hsigned Hneq. unfold TokenService.sign.
    rewrite (verify_parts _ _ _ _ Hsigned Htag).
    destruct (String.eqb_spec (mac secret (encode c)) (mac secret' (encode c)));
      [congruence|reflexivity].
  - intros now Hsigned Hcodec Hpast. unfold TokenService.sign.
    rewrite (verify_parts _ _ _ _ Hsigned Htag), String.eqb_refl, Hcodec.
    destruct (Z.ltb_spec (TokenService.expiresAt c) now); [reflexivity|lia].
  - intros w v authHeader token s Hsplit Hbad.
    destruct (authMiddleware_outcomes (verify_with E mac decode) w v
                (Some authHeader) s) as [[s' H]|[s' [user H]]]; [now rewrite H|].
    exfalso. revert H. unfold authMiddleware.
    destruct authHeader as [|ch h]; [discriminate|].
    rewrite Hsplit. destruct token as [|ct t]; [discriminate|].
    unfold_handlers. unfold current_secret in Hbad.
    destruct v; cbn.
    + rewrite (Hbad _ eq_refl). discriminate.
    + destruct (parameter w); cbn; [rewrite (Hbad _ eq_refl)|]; discriminate.
    + destruct (parameter w); cbn; [rewrite (Hbad _ eq_refl)|]; discriminate.
Qed.

End Tokens.

Lemma verify_issue_roundtrip_witness :
  exists c',
    TokenService.verify Sample.mac Sample.decode
      (TokenService.issue Sample.mac Sample.encode "abc"
         {[ "email" := JStr "a@b.com" ]} "s3cret" 43200 1700000000)
      "s3cret" 1700043199 = Some c'
    /\ TokenService.subjectIdentifier c' = "abc"
    /\ TokenService.auxiliaryClaims c' = {[ "email" := JStr "a@b.com" ]}
    /\ TokenService.expiresAt c' = 1700000000 + 43200.
Proof.
  apply (verify_issue_roundtrip Sample.mac Sample.encode Sample.decode "abc"
           {[ "email" := JStr "a@b.com" ]} "s3cret" 43200 1700000000 1700043199);
    reflexivity.
Defined.

Lemma verify_rejects_witness :
  TokenService.verify Sample.mac Sample.decode "root.s3cret/abc" "s3cret" 1700000000 = None
  /\ TokenService.verify Sample.mac Sample.decode
       (TokenService.sign Sample.mac Sample.encode Sample.abc_identity "s3cret")
       "guess" 1700000000 = None
  /\ TokenService.verify Sample.mac Sample.decode
       (TokenService.sign Sample.mac Sample.encode Sample.abc_identity "s3cret")
       "s3cret" 1700043201 = None
  /\ (authMiddleware (verify_with Sample.lib Sample.mac Sample.decode)
        Sample.empty_world Part000 (Some "Bearer abc.guess/abc") Sample.fresh).2
     = Reply unauthorized.
Proof.
  destruct (verify_rejects Sample.mac Sample.encode Sample.decode Sample.lib
              Sample.abc_identity "s3cret" eq_refl)
    as [Htampered [Hsecret [Hexpired Hgate]]].
  split; [|split; [|split]].
  - apply (Htampered {| TokenService.subjectIdentifier := "root";
                        TokenService.auxiliaryClaims := ∅;
                        TokenService.expiresAt := 1700043200 |} 1700000000);
      [reflexivity|discriminate].
  - apply (Hsecret "guess" 1700000000); [reflexivity|discriminate].
  - apply (Hexpired 1700043201); reflexivity.
  - apply (Hgate Sample.empty_world Part000 "Bearer abc.guess/abc" "abc.guess/abc"
             Sample.fresh); [reflexivity|].
    intros secret' [= <-]. reflexivity.
Defined.

(** *** The scenario of the specification

    Register `abc`, register `abc` again, log in, and greet. *)
Example scenario_abc :
  let first := register Sample.lib Part000 Sample.abc_registration Sample.empty_world in
  let stored := Sample.world_of (table_after first) true in
  answer first = Responded (message 201 "User registered successfully")
  /\ answer (register Sample.lib Part000 Sample.abc_registration stored)
     = Responded (message 400 "Username already taken")
  /\ answer (login Sample.lib Part000
               (JObj [("username", JStr "abc"); ("password", JStr "abcdef")]) stored)
     = Responded {| status := 200;
                    payload := JsonBody (JObj [("token", JStr "abc@s3cret")]) |}
  /\ answer (protected Sample.lib Part000 (Some "Bearer abc@s3cret") stored)
     = Responded {| status := 200; payload := TextBody "Hello abc!" |}.
Proof. repeat split. Qed.

(** ** Further properties of the application *)

(** *** The content-type middleware *)

Section IndexOf.
Variable needle : string.

Lemma starts_with_spec (s : string) :
  starts_with needle s = true <-> exists post, s = needle +:+ post.
Proof.
  revert s. induction needle as [|a n IH]; intros s; simpl.
  - split; [intros _; now exists s|reflexivity].
  - destruct s as [|b s]; [split; [discriminate|intros [post H]; discriminate]|].
    rewrite andb_true_iff, IH. split.
    + intros [Hab [post ->]]. apply Ascii.eqb_eq in Hab as ->. now exists post.
    + intros [post [= -> ->]]. split; [apply Ascii.eqb_refl|now exists post].
Qed.

Lemma indexOf_lower (s : string) : -1 <= indexOf needle s.
Proof.
  induction s as [|c s IH]; simpl.
  - destruct (starts_with needle EmptyString); lia.
  - destruct (starts_with needle (String c s)); [lia|].
    destruct (Z.eqb_spec (indexOf needle s) (-1)); lia.
Qed.

(** [indexOf] answers -1 exactly when the needle occurs nowhere. *)
Lemma indexOf_absent (s : string) :
  indexOf needle s = -1 <-> forall pre post, s <> pre +:+ needle +:+ post.
Proof.
  induction s as [|c s IH]; simpl.
  - destruct (starts_with needle EmptyString) eqn:Hstart.
    + split; [discriminate|]. intros Hno. exfalso.
      apply starts_with_spec in Hstart as [post Hpost].
      apply (Hno EmptyString post). exact Hpost.
    + split; [|reflexivity]. intros _ pre post Hocc.
      destruct pre; [|discriminate].
      assert (starts_with needle EmptyString = true) as Habs
          by (apply starts_with_spec; now exists post).
      congruence.
  - destruct (starts_with needle (String c s)) eqn:Hstart.
    + split; [discriminate|]. intros Hno. exfalso.
      apply starts_with_spec in Hstart as [post Hpost].
      apply (Hno EmptyString post). exact Hpost.
    + pose proof (indexOf_lower s) as Hlow.
      destruct (Z.eqb_spec (indexOf needle s) (-1)) as [Hi|Hi].
      * split; [|reflexivity]. intros _ pre post Hocc.
        destruct pre as [|c' pre].
        -- assert (starts_with needle (String c s) = true) as Habs
               by (apply starts_with_spec; now exists post).
           congruence.
        -- injection Hocc as _ Hocc. apply IH in Hocc; [assumption|exact Hi].
      * split; [lia|]. intros Hno. exfalso. apply Hi, IH.
        intros pre post ->. apply (Hno (String c pre) post). reflexivity.
Qed.

End IndexOf.

(** X1.  The content-type middleware answers 400 `Invalid Content-Type`
    exactly when the method is not GET, the Content-Type header is present
    and not empty, and the text `application/json` occurs nowhere in it;
    in every other case it calls [next]. *)
Theorem content_type_guard_refuses_iff {Num : Type} (method : string)
  (content_type : option string) :
  (content_type_guard (Num := Num) method content_type = Some invalid_content_type
   <-> method <> "GET"
       /\ exists ct, content_type = Some ct /\ ct <> EmptyString
          /\ forall pre post, ct <> pre +:+ "application/json" +:+ post)
  /\ (content_type_guard (Num := Num) method content_type = None
      \/ content_type_guard (Num := Num) method content_type
         = Some invalid_content_type).
Proof.
  unfold content_type_guard.
  destruct content_type as [[|c ct]|].
  - split; [|now left]. split; [discriminate|].
    intros [_ [ct [[= <-] [Hne _]]]]. congruence.
  - destruct (Z.eqb_spec (indexOf "application/json" (String c ct)) (-1))
      as [Hi|Hi];
      destruct (String.eqb_spec method "GET") as [->|Hm]; cbn [negb andb].
    + split; [|now left]. split; [discriminate|]. intros [Hm _]. congruence.
    + split; [|now right]. split; [|reflexivity]. intros _.
      split; [assumption|]. exists (String c ct).
      split; [reflexivity|]. split; [discriminate|].
      now apply indexOf_absent.
    + split; [|now left]. split; [discriminate|]. intros [Hm _]. congruence.
    + split; [|now left]. split; [discriminate|].
      intros [_ [ct' [[= <-] [_ Hno]]]]. exfalso. apply Hi. now apply indexOf_absent.
  - split; [|now left]. split; [discriminate|].
    intros [_ [ct [H _]]]. discriminate.
Qed.

(** *** The Auth Gate, further *)

Section AuthGateMore.
Context {Num : Type}.
Variable E : externals Num.
Variable w : world Num.
Variable v : variant.

(** X2.  authMiddleware lets a request through as [user] exactly when the
    Authorization header is present, its second space-separated component
    is a non-empty token, the signing secret is available, and jwt.verify
    answers [user] for that token under that secret. *)
Theorem authMiddleware_accepts_iff (authorization : option string)
  (user : claims Num) :
  authenticated E w v authorization user
  <-> exists authHeader token secret,
        authorization = Some authHeader
        /\ split " " authHeader !! 1%nat = Some token
        /\ token <> EmptyString
        /\ current_secret w v = Some secret
        /\ jwt_verify E token secret (now_ms w) = Some user.
Proof.
  unfold authenticated, authMiddleware, current_secret. split.
  - intros [s Hs]. revert Hs.
    destruct authorization as [[|c h]|]; try discriminate.
    destruct (split " " (String c h) !! 1%nat) as [[|c' t]|] eqn:Hsplit;
      try discriminate.
    unfold_handlers.
    destruct v; cbn.
    + destruct (jwt_verify E _ _ _) eqn:Hv; [|discriminate].
      intros [= _ <-]. exists (String c h), (String c' t), secretKey.
      repeat split; auto; discriminate.
    + destruct (parameter w) as [secret|]; cbn; [|discriminate].
      destruct (jwt_verify E _ _ _) eqn:Hv; [|discriminate].
      intros [= _ <-]. exists (String c h), (String c' t), secret.
      repeat split; auto; discriminate.
    + destruct (parameter w) as [secret|]; cbn; [|discriminate].
      destruct (jwt_verify E _ _ _) eqn:Hv; [|discriminate].
      intros [= _ <-]. exists (String c h), (String c' t), secret.
      repeat split; auto; discriminate.
  - intros [authHeader [token [secret [-> [Hsplit [Hne [Hsecret Hverify]]]]]]].
    destruct authHeader as [|c h]; [discriminate|].
    rewrite Hsplit. destruct token as [|c' t]; [congruence|].
    unfold_handlers.
    destruct v; cbn.
    + injection Hsecret as <-. rewrite Hverify. eauto.
    + rewrite Hsecret. cbn. rewrite Hverify. eauto.
    + rewrite Hsecret. cbn. rewrite Hverify. eauto.
Qed.

(** X3.  authMiddleware reads the second space-separated component of the
    header and nothing after it: whatever follows a further space does not
    change what it does. *)
Theorem authMiddleware_ignores_trailer (scheme token rest : string) :
  mentions " " scheme = false ->
  mentions " " token = false ->
  token <> EmptyString ->
  authMiddleware E w v (Some (scheme +:+ " " +:+ token +:+ " " +:+ rest))
  = verify_step E w v token.
Proof.
  intros Hs Ht Hne. apply authMiddleware_token; [|assumption].
  change (scheme +:+ " " +:+ token +:+ " " +:+ rest)
    with (scheme +:+ String " " (token +:+ String " " rest)).
  now rewrite (split_append _ _ _ Hs), (split_append _ _ _ Ht).
Qed.

(** X4.  A request that authMiddleware does not let through is answered 401
    `Unauthorized` on /protected, GET /todos/:id and PUT /todos/:id alike,
    leaves the table as it was, and reaches neither GetItem nor PutItem. *)
Theorem unauthenticated_request_is_inert (authorization : option string) :
  (forall user, ~ authenticated E w v authorization user) ->
  forall req,
    (req = Protected authorization
     \/ (exists id, req = TodosGet authorization id)
     \/ (exists id reqbody, req = TodosPut authorization id reqbody)) ->
    answer (serve E v req w) = Responded unauthorized
    /\ table_after (serve E v req w) = table w
    /\ forall pk sk, ~ In (GetItem pk sk) (calls (serve E v req w))
                     /\ ~ In (PutItem pk sk) (calls (serve E v req w)).
Proof.
  intros Hno req Hreq.
  destruct (authMiddleware_outcomes E w v authorization
              {| st_table := table w; st_calls := [] |})
    as [[s Hs]|[s [user Hs]]]; [|exfalso; apply (Hno user); now exists s].
  pose proof (authMiddleware_table E w v _ _ _ _ Hs) as Htable.
  destruct (authMiddleware_calls E w v _ _ _ _ Hs) as [added [Hcalls Hadded]].
  cbn in Htable, Hcalls.
  assert (Hstore : forall pk sk, ~ In (GetItem pk sk) (st_calls s)
                                 /\ ~ In (PutItem pk sk) (st_calls s)).
  { intros pk sk. rewrite Hcalls.
    split; intros Hin; destruct (Hadded _ Hin) as [H|[t H]]; discriminate. }
  destruct Hreq as [->|[[id ->]|[id [reqbody ->]]]]; simpl;
    unfold protected, todos_get, todos_put, run, bind; rewrite Hs; cbn;
    repeat split; auto; apply Hstore.
Qed.

End AuthGateMore.

Lemma authMiddleware_ignores_trailer_witness :
  authMiddleware Sample.lib Sample.empty_world Part000
    (Some "Bearer abc@s3cret and more")
  = verify_step Sample.lib Sample.empty_world Part000 "abc@s3cret".
Proof.
  apply (authMiddleware_ignores_trailer Sample.lib Sample.empty_world Part000
           "Bearer" "abc@s3cret" "and more");
    [reflexivity|reflexivity|discriminate].
Defined.

Lemma unauthenticated_request_is_inert_witness :
  let r := serve Sample.lib Part000
             (TodosPut (Some "Bearer forged") "1" (JObj [("title", JStr "milk")]))
             Sample.empty_world in
  answer r = Responded unauthorized
  /\ table_after r = ∅
  /\ forall pk sk, ~ In (GetItem pk sk) (calls r) /\ ~ In (PutItem pk sk) (calls r).
Proof.
  apply (unauthenticated_request_is_inert Sample.lib Sample.empty_world Part000
           (Some "Bearer forged")).
  - intros user [s Hs]. discriminate Hs.
  - right. right. eexists _, _. reflexivity.
Defined.


(** *** POST /register, further *)

Section RegistrationMore.
Context {Num : Type}.
Variable E : externals Num.

(** A body of the expected shape passes the checks. *)
Lemma validation_well_formed (v : variant) (reqbody : json Num)
  (uname password fullname mail : string) (s : hstate Num) :
  well_formed reqbody uname password fullname mail ->
  (v = Part001 -> email_match E mail = true) ->
  validation E v reqbody s = (s, Go tt).
Proof.
  intros (Hown & Hu & Hp & Hf & Hm & Lu & Lp & Lf & Lm) Hmail.
  assert (Hloop : for_each required (check_field E reqbody) s = (s, Go tt)).
  { unfold required. simpl. unfold bind.
    rewrite (check_field_accepts E _ _ _ _ Hown Hu Lu),
      (check_field_accepts E _ _ _ _ Hown Hp Lp),
      (check_field_accepts E _ _ _ _ Hown Hf Lf),
      (check_field_accepts E _ _ _ _ Hown Hm Lm). reflexivity. }
  unfold validation, validateEmail, bind, of_option.
  destruct v; cbv beta iota delta [validates]; rewrite ?Hloop; cbv beta iota;
    rewrite ?Hm; try reflexivity.
  simpl. now rewrite Hmail.
Qed.

(** X5.  A registration whose four fields are strings of at least three
    characters (with an address that passes the test, in the third
    revision), for a free username and with every service answering, is
    answered 201, calls GetItem, PutItem and (but for index.js) the
    notification in that order, and stores the credential record under
    `user#<username>` / `user`. *)
Theorem register_well_formed_succeeds (v : variant) (reqbody : json Num)
  (w : world Num) (uname password fullname mail : string) :
  well_formed reqbody uname password fullname mail ->
  (v = Part001 -> email_match E mail = true) ->
  get_item_ok w = true ->
  table w !! ("user#" +:+ uname, "user") = None ->
  put_item_ok w = true ->
  notify_ok w = true ->
  register E v reqbody w
  = {| answer := Responded (message 201 "User registered successfully");
       calls := registration_calls v uname;
       table_after :=
         <[("user#" +:+ uname, "user") :=
             credential_record E v w uname password fullname mail]> (table w) |}.
Proof.
  intros Hshape Hmail Hget Hfree Hput Hnotify.
  pose proof (validation_well_formed v reqbody _ _ _ _
                {| st_table := table w; st_calls := [] |} Hshape Hmail) as Hval.
  destruct Hshape as (Hown & Hu & Hp & Hf & Hm & _).
  unfold register, run, post_register, registration, sendWelcomeEmail. unfold_handlers.
  rewrite Hval, Hu, Hp, Hf, Hm. cbn.
  rewrite Hget. cbn. rewrite Hfree. cbn.
  destruct v; cbn; rewrite Hput; cbn; rewrite ?Hnotify; reflexivity.
Qed.


(** The loop passes the fields that are long enough and stops at the first
    that is not. *)
Lemma for_each_first_defect (reqbody : json Num) (before after : list string)
  (field : string) (s : hstate Num) :
  own_property reqbody "hasOwnProperty" = None ->
  (forall f, In f before ->
     exists val, own_property reqbody f = Some val /\ too_short E val = Some false) ->
  defective E reqbody field ->
  for_each (before ++ field :: after) (check_field E reqbody) s
  = (s, Reply (message 400 (complaint reqbody field))).
Proof.
  intros Hown Hbefore Hbad.
  induction before as [|f before IH]; simpl; unfold bind, check_field at 1;
    rewrite Hown.
  - unfold defective, complaint in *.
    destruct (own_property reqbody field) as [val|]; [|reflexivity].
    unfold bind, of_option. rewrite Hbad. reflexivity.
  - destruct (Hbefore f) as [val [-> Hval]]; [now left|].
    unfold bind, of_option. rewrite Hval. cbn.
    apply IH. intros f' Hf'. apply Hbefore. now right.
Qed.

(** X6.  The revisions that check the body name the first required field
    that is missing or too short, in the order username, password,
    fullname, email, with a 400, and make no external call. *)
Theorem register_names_first_defect (v : variant) (reqbody : json Num)
  (w : world Num) (before after : list string) (field : string) :
  validates v = true ->
  own_property reqbody "hasOwnProperty" = None ->
  required = (before ++ field :: after)%list ->
  (forall f, In f before ->
     exists val, own_property reqbody f = Some val /\ too_short E val = Some false) ->
  defective E reqbody field ->
  register E v reqbody w
  = {| answer := Responded (message 400 (complaint reqbody field));
       calls := [];
       table_after := table w |}.
Proof.
  intros Hv Hown Hreq Hbefore Hbad.
  unfold register, run, post_register, validation, bind.
  rewrite Hv, Hreq, (for_each_first_defect _ _ _ _ _ Hown Hbefore Hbad).
  reflexivity.
Qed.

(** The third revision refuses a body of the expected shape whose address
    fails the test, before any external call. *)
Lemma register_unmatched_email (reqbody : json Num) (w : world Num)
  (uname password fullname mail : string) :
  well_formed reqbody uname password fullname mail ->
  email_match E mail = false ->
  register E Part001 reqbody w
  = {| answer := Responded (message 400 "Invalid email address");
       calls := [];
       table_after := table w |}.
Proof.
  intros Hshape Hmail.
  pose proof (validation_well_formed Part000 reqbody _ _ _ _
                {| st_table := table w; st_calls := [] |} Hshape) as Hval.
  destruct Hshape as (Hown & Hu & Hp & Hf & Hm & _).
  unfold validation, bind in Hval. cbv beta iota delta [validates] in Hval.
  destruct (for_each required (check_field E reqbody)
              {| st_table := table w; st_calls := [] |}) as [s1 [[]|r|e]] eqn:Hloop;
    try (specialize (Hval ltac:(discriminate)); discriminate).
  specialize (Hval ltac:(discriminate)). injection Hval as ->.
  unfold register, run, post_register, validation, validateEmail.
  unfold_handlers. cbv beta iota delta [validates].
  rewrite Hloop, Hm. cbn. rewrite Hmail. reflexivity.
Qed.

(** X7.  When the welcome notification fails, the registration is not
    answered 201 (the third revision answers 500, part_000 leaves the error
    to the caller), yet the credential record is already in the table. *)
Theorem register_notification_failure_keeps_record (v : variant)
  (reqbody : json Num) (w : world Num) (uname password fullname mail : string) :
  v <> IndexJs ->
  well_formed reqbody uname password fullname mail ->
  (v = Part001 -> email_match E mail = true) ->
  get_item_ok w = true ->
  table w !! ("user#" +:+ uname, "user") = None ->
  put_item_ok w = true ->
  notify_ok w = false ->
  answer (register E v reqbody w)
  = match v with
    | Part001 => Responded (message 500 (err_to_string E NotifyFailure))
    | IndexJs | Part000 => Unanswered NotifyFailure
    end
  /\ table_after (register E v reqbody w) !! ("user#" +:+ uname, "user")
     = Some (credential_record E v w uname password fullname mail).
Proof.
  intros Hv Hshape Hmail Hget Hfree Hput Hnotify.
  pose proof (validation_well_formed v reqbody _ _ _ _
                {| st_table := table w; st_calls := [] |} Hshape Hmail) as Hval.
  destruct Hshape as (Hown & Hu & Hp & Hf & Hm & _).
  unfold register, run, post_register, registration, sendWelcomeEmail. unfold_handlers.
  rewrite Hval, Hu, Hp, Hf, Hm. cbn.
  rewrite Hget. cbn. rewrite Hfree. cbn.
  destruct v; [congruence| |]; cbn; rewrite Hput; cbn; rewrite Hnotify; cbn;
    (split; [reflexivity|apply lookup_insert_eq]).
Qed.

(** X8.  Whatever the body and the world, the external calls of /register
    are a prefix of GetItem, PutItem, notification on one partition key,
    and the table changes only when PutItem was among them. *)
Theorem register_calls_in_order (v : variant) (reqbody : json Num) (w : world Num) :
  exists pk,
    calls (register E v reqbody w)
      `prefix_of` [GetItem pk "user"; PutItem pk "user"; SendNotification]
    /\ (table_after (register E v reqbody w) <> table w ->
        In (PutItem pk "user") (calls (register E v reqbody w))).
Proof.
  remember (register E v reqbody w) as r eqn:Hr. revert Hr.
  unfold register, run, post_register, registration, sendWelcomeEmail. unfold_handlers.
  destruct (validation_pure E v reqbody {| st_table := table w; st_calls := [] |})
    as [f ->].
  destruct f as [[]|r'|e].
  2,3: intros ->; exists EmptyString; cbn;
       (split; [eexists; reflexivity|congruence]).
  intros Hr. crack Hr; subst r; cbn;
    eexists; (split; [eexists; reflexivity|]); (congruence || (intros _; tauto)).
  Unshelve. all: exact EmptyString.
Qed.


End RegistrationMore.

Lemma register_well_formed_succeeds_witness :
  register Sample.lib Part001 Sample.abc_registration Sample.empty_world
  = {| answer := Responded (message 201 "User registered successfully");
       calls := [GetItem "user#abc" "user"; PutItem "user#abc" "user"; SendNotification];
       table_after :=
         <[("user#abc", "user") :=
             credential_record Sample.lib Part001 Sample.empty_world
               "abc" "abcdef" "Abc Def" "a@b.com"]> ∅ |}.
Proof.
  apply (register_well_formed_succeeds Sample.lib Part001 Sample.abc_registration
           Sample.empty_world "abc" "abcdef" "Abc Def" "a@b.com");
    try reflexivity.
  unfold well_formed. simpl. repeat split; lia.
Defined.

Lemma register_names_first_defect_witness :
  let reqbody : json Z := JObj [("username", JStr "abc"); ("password", JStr "ab")] in
  register Sample.lib Part000 reqbody Sample.empty_world
  = {| answer := Responded (message 400 (complaint reqbody "password"));
       calls := [];
       table_after := ∅ |}.
Proof.
  intros reqbody.
  apply (register_names_first_defect Sample.lib Part000 reqbody Sample.empty_world
           ["username"] ["fullname"; "email"] "password");
    try reflexivity.
  intros f [<-|[]]. eexists. split; reflexivity.
Defined.

Lemma register_notification_failure_keeps_record_witness :
  let r := register Sample.lib Part000 Sample.abc_registration Sample.silent_world in
  answer r = Unanswered NotifyFailure
  /\ table_after r !! ("user#abc", "user")
     = Some (credential_record Sample.lib Part000 Sample.silent_world
               "abc" "abcdef" "Abc Def" "a@b.com").
Proof.
  apply (register_notification_failure_keeps_record Sample.lib Part000
           Sample.abc_registration Sample.silent_world
           "abc" "abcdef" "Abc Def" "a@b.com");
    try reflexivity; try discriminate.
  unfold well_formed. simpl. repeat split; lia.
Defined.



(** *** POST /login, further *)

Section LoginMore.
Context {Num : Type}.
Variable E : externals Num.

(** What a registration that answered 201 has stored. *)
Lemma register_success_record (v : variant) (reqbody : json Num) (w : world Num) :
  answer (register E v reqbody w)
  = Responded (message 201 "User registered successfully") ->
  exists name password stored,
    render (num_to_string E) (own_property reqbody "username") = Some name
    /\ own_property reqbody "password" = Some (JStr password)
    /\ table_after (register E v reqbody w) !! ("user#" +:+ name, "user") = Some stored
    /\ own_property (data stored) "salt" = Some (JStr (random_hex w))
    /\ own_property (data stored) "password"
       = Some (JStr (pbkdf2Sync E password (random_hex w)))
    /\ (v <> IndexJs ->
        own_property (data stored) "email" = own_property reqbody "email").
Proof.
  unfold register, run, post_register, registration, sendWelcomeEmail. unfold_handlers.
  destruct (validation_pure E v reqbody {| st_table := table w; st_calls := [] |})
    as [f Hf].
  rewrite Hf. destruct f as [[]|r|e].
  - clear Hf. intros H.
    crack H; try discriminate; cbn; eexists _, _, _;
      (split; [reflexivity|]); (split; [reflexivity|]);
      (split; [apply lookup_insert_eq|]); cbn;
      repeat split; congruence.
  - apply validation_status in Hf. cbn. intros [= ->]. discriminate.
  - destruct v; discriminate.
Qed.

(** What /login does once the stored hash is the derived one. *)
Lemma login_matching_hash (v : variant) (reqbody : json Num) (w : world Num)
  (name password salt : string) (userItem : item Num) :
  render (num_to_string E) (own_property reqbody "username") = Some name ->
  own_property reqbody "password" = Some (JStr password) ->
  get_item_ok w = true ->
  table w !! ("user#" +:+ name, "user") = Some userItem ->
  own_property (data userItem) "salt" = Some (JStr salt) ->
  own_property (data userItem) "password" = Some (JStr (pbkdf2Sync E password salt)) ->
  answer (login E v reqbody w)
  = match current_secret w v with
    | Some secret =>
        Responded
          {| status := 200;
             payload := JsonBody (JObj [("token", JStr (jwt_sign E
               {| username := own_property reqbody "username";
                  email := match v with
                           | IndexJs => None
                           | Part000 | Part001 => own_property (data userItem) "email"
                           end;
                  exp := now_ms w / 1000 + 43200 |} secret))]) |}
    | None => uncaught E v SecretFailure
    end.
Proof.
  intros Hname Hpw Hget Hitem Hsalt Hhash.
  unfold login, run, post_login, current_secret. unfold_handlers.
  rewrite Hname, Hpw. cbn. rewrite Hget. cbn. rewrite Hitem. cbn.
  rewrite Hsalt. cbn. unfold differs. rewrite Hhash, String.eqb_refl. cbn.
  destruct v; cbn; try reflexivity; destruct (parameter w); reflexivity.
Qed.

(** X10.  After a registration that was answered 201, a login with the same
    username and password against the table it left is answered 200 with
    a token signed over that username (and, but for index.js, the
    registered address), expiring 43200 seconds after the login. *)
Theorem register_then_login (v : variant) (reqbody reqbody' : json Num)
  (w w' : world Num) (secret : string) :
  answer (register E v reqbody w)
  = Responded (message 201 "User registered successfully") ->
  own_property reqbody' "username" = own_property reqbody "username" ->
  own_property reqbody' "password" = own_property reqbody "password" ->
  table w' = table_after (register E v reqbody w) ->
  get_item_ok w' = true ->
  current_secret w' v = Some secret ->
  answer (login E v reqbody' w')
  = Responded
      {| status := 200;
         payload := JsonBody (JObj [("token", JStr (jwt_sign E
           {| username := own_property reqbody "username";
              email := match v with
                       | IndexJs => None
                       | Part000 | Part001 => own_property reqbody "email"
                       end;
              exp := now_ms w' / 1000 + 43200 |} secret))]) |}.
Proof.
  intros Hreg Hu Hp Htable Hget Hsecret.
  destruct (register_success_record v reqbody w Hreg)
    as (name & password & stored & Hname & Hpw & Hstored & Hsalt & Hhash & Hmail).
  rewrite (login_matching_hash v reqbody' w' name password (random_hex w) stored);
    rewrite ?Hu, ?Hp, ?Htable; try assumption.
  rewrite Hsecret. destruct v; try reflexivity; rewrite Hmail; congruence.
Qed.

(** X11.  /login answers 200 only when the password is a string, the table
    holds a record for the user, and the stored hash is the one derived
    from that password with the stored salt. *)
Theorem login_token_requires_matching_hash (v : variant) (reqbody : json Num)
  (w : world Num) (r : response Num) :
  answer (login E v reqbody w) = Responded r ->
  status r = 200 ->
  exists name password salt userItem,
    render (num_to_string E) (own_property reqbody "username") = Some name
    /\ own_property reqbody "password" = Some (JStr password)
    /\ table w !! ("user#" +:+ name, "user") = Some userItem
    /\ own_property (data userItem) "salt" = Some (JStr salt)
    /\ own_property (data userItem) "password"
       = Some (JStr (pbkdf2Sync E password salt)).
Proof.
  unfold login, run, post_login. unfold_handlers.
  intros Hr Hs.
  crack Hr; try discriminate;
    injection Hr as <-; simpl in Hs; try discriminate;
    match goal with
    | Hd : differs ?h ?stored = false |- _ =>
        unfold differs in Hd;
        destruct stored as [[| | |stored_hash| |]|] eqn:Hstored; try discriminate;
        apply negb_false_iff, String.eqb_eq in Hd; subst stored_hash
    end;
    eexists _, _, _, _; repeat split; try eassumption; reflexivity.
Qed.

(** X12.  When the parameter store does not give the signing secret, a login
    with the right password gets no token: the third revision answers 500,
    part_000 leaves the error to the caller. *)
Theorem login_secret_unavailable (v : variant) (reqbody : json Num) (w : world Num)
  (name password salt : string) (userItem : item Num) :
  v <> IndexJs ->
  parameter w = None ->
  render (num_to_string E) (own_property reqbody "username") = Some name ->
  own_property reqbody "password" = Some (JStr password) ->
  get_item_ok w = true ->
  table w !! ("user#" +:+ name, "user") = Some userItem ->
  own_property (data userItem) "salt" = Some (JStr salt) ->
  own_property (data userItem) "password" = Some (JStr (pbkdf2Sync E password salt)) ->
  answer (login E v reqbody w)
  = match v with
    | Part001 => Responded (message 500 (err_to_string E SecretFailure))
    | IndexJs | Part000 => Unanswered SecretFailure
    end.
Proof.
  intros Hv Hparam Hname Hpw Hget Hitem Hsalt Hhash.
  rewrite (login_matching_hash v reqbody w name password salt userItem) by assumption.
  unfold current_secret. destruct v; [congruence| |]; rewrite Hparam; reflexivity.
Qed.

End LoginMore.

Lemma register_then_login_witness :
  let first := register Sample.lib Part000 Sample.abc_registration Sample.empty_world in
  answer (login Sample.lib Part000 Sample.abc_registration
            (Sample.world_of (table_after first) true))
  = Responded
      {| status := 200;
         payload := JsonBody (JObj [("token", JStr "abc@s3cret")]) |}.
Proof.
  intros first.
  apply (register_then_login Sample.lib Part000 Sample.abc_registration
           Sample.abc_registration Sample.empty_world
           (Sample.world_of (table_after first) true) "s3cret");
    reflexivity.
Defined.

Lemma login_token_requires_matching_hash_witness :
  exists name password salt userItem,
    render (num_to_string Sample.lib) (own_property Sample.abc_registration "username")
    = Some name
    /\ own_property Sample.abc_registration "password" = Some (JStr password)
    /\ table Sample.abc_world !! ("user#" +:+ name, "user") = Some userItem
    /\ own_property (data userItem) "salt" = Some (JStr salt)
    /\ own_property (data userItem) "password"
       = Some (JStr (pbkdf2Sync Sample.lib password salt)).
Proof.
  apply (login_token_requires_matching_hash Sample.lib Part000 Sample.abc_registration
           Sample.abc_world
           {| status := 200;
              payload := JsonBody (JObj [("token", JStr "abc@s3cret")]) |});
    reflexivity.
Defined.

Lemma login_secret_unavailable_witness :
  answer (login Sample.lib Part001 Sample.abc_registration
            (with_table Sample.dark_world (table Sample.abc_world)))
  = Responded (message 500 "Error").
Proof.
  apply (login_secret_unavailable Sample.lib Part001 Sample.abc_registration
           (with_table Sample.dark_world (table Sample.abc_world))
           "abc" "abcdef" "0a1b" Sample.abc_user);
    try reflexivity; discriminate.
Defined.


(** *** What the routes leave in the table *)

Section TableMore.
Context {Num : Type}.
Variable E : externals Num.
Variable v : variant.

(** authMiddleware asks the same of every table. *)
Lemma authMiddleware_any_state (w : world Num) (authorization : option string)
  (s1 s1' s2 : hstate Num) (f : flow Num (claims Num)) :
  authMiddleware E w v authorization s1 = (s1', f) ->
  exists s2', authMiddleware E w v authorization s2 = (s2', f)
              /\ st_table s2' = st_table s2.
Proof.
  unfold authMiddleware.
  destruct authorization as [[|c h]|];
    try (intros [= _ <-]; eexists; split; reflexivity).
  destruct (split " " (String c h) !! 1%nat) as [[|c' t]|];
    try (intros [= _ <-]; eexists; split; reflexivity).
  unfold_handlers.
  destruct v; cbn; destruct (parameter w); cbn;
    try destruct (jwt_verify E _ _ _);
    intros [= _ <-]; eexists; split; reflexivity.
Qed.

(** The user a request is let through as is determined by the request. *)
Lemma authenticated_unique (w : world Num) (authorization : option string)
  (user user' : claims Num) :
  authenticated E w v authorization user ->
  authenticated E w v authorization user' ->
  user = user'.
Proof. intros [s Hs] [s' Hs']. rewrite Hs in Hs'. now injection Hs'. Qed.

Lemma login_calls (reqbody : json Num) (w : world Num) (pk sk : string) :
  ~ In (PutItem pk sk) (calls (login E v reqbody w)).
Proof.
  remember (login E v reqbody w) as r eqn:Hr. revert Hr.
  unfold login, run, post_login. unfold_handlers.
  intros Hr. crack Hr; subst r; cbn; intuition discriminate.
Qed.

(** X13.  /login, /protected and GET /todos/:id leave the table as it was
    and never call PutItem. *)
Theorem reading_routes_write_nothing (req : request Num) (w : world Num) :
  (exists reqbody, req = Login reqbody)
  \/ (exists authorization, req = Protected authorization)
  \/ (exists authorization id, req = TodosGet authorization id) ->
  table_after (serve E v req w) = table w
  /\ forall pk sk, ~ In (PutItem pk sk) (calls (serve E v req w)).
Proof.
  intros [[reqbody ->]|[[authorization ->]|[authorization [id ->]]]]; simpl.
  - split; [apply login_frame|apply login_calls].
  - split; [apply protected_frame|]. intros pk sk.
    unfold protected, run, bind.
    destruct (authMiddleware E w v authorization
                {| st_table := table w; st_calls := [] |}) as [s f] eqn:Hauth.
    destruct (authMiddleware_calls E w v _ _ _ _ Hauth) as [added [Hcalls Hadded]].
    cbn in Hcalls.
    assert (Hs : ~ In (PutItem pk sk) (st_calls s)).
    { rewrite Hcalls. intros Hin. destruct (Hadded _ Hin) as [H|[t H]]; discriminate. }
    destruct f as [user|r|e]; [|assumption..].
    unfold get_protected. unfold_handlers.
    destruct (render (num_to_string E) (username user)); assumption.
  - split; [apply todos_get_frame|]. intros pk sk.
    unfold todos_get, run, bind.
    destruct (authMiddleware E w v authorization
                {| st_table := table w; st_calls := [] |}) as [s f] eqn:Hauth.
    destruct (authMiddleware_calls E w v _ _ _ _ Hauth) as [added [Hcalls Hadded]].
    cbn in Hcalls.
    assert (Hs : ~ In (PutItem pk sk) (st_calls s)).
    { rewrite Hcalls. intros Hin. destruct (Hadded _ Hin) as [H|[t H]]; discriminate. }
    destruct f as [user|r|e]; [|assumption..].
    unfold get_todos. destruct id as [|c id]; [assumption|].
    unfold_handlers.
    destruct (render (num_to_string E) (username user)); cbn; [|assumption].
    destruct (get_item_ok w); cbn; rewrite in_app_iff;
      intros [H|[H|[]]]; try discriminate; contradiction.
Qed.

(** No request replaces a stored user record. *)
Lemma serve_keeps_user (req : request Num) (w : world Num) (pk : string)
  (stored : item Num) :
  table w !! (pk, "user") = Some stored ->
  table_after (serve E v req w) !! (pk, "user") = Some stored.
Proof.
  intros Hstored.
  destruct req as [reqbody|reqbody|authorization|authorization id|authorization id reqbody];
    simpl.
  - remember (register E v reqbody w) as r eqn:Hr. revert Hr.
    unfold register, run, post_register, registration, sendWelcomeEmail. unfold_handlers.
    destruct (validation_pure E v reqbody {| st_table := table w; st_calls := [] |})
      as [f ->].
    destruct f as [[]|r'|e]; [| intros ->; assumption..].
    intros Hr. crack Hr; subst r; cbn; try assumption;
      (rewrite lookup_insert_ne; [assumption|]);
      intros [= <-]; congruence.
  - now rewrite login_frame.
  - now rewrite protected_frame.
  - now rewrite todos_get_frame.
  - unfold todos_put, run, bind.
    destruct (authMiddleware E w v authorization
                {| st_table := table w; st_calls := [] |}) as [s f] eqn:Hauth.
    pose proof (authMiddleware_table _ _ _ _ _ _ _ Hauth) as Htable. cbn in Htable.
    destruct f as [user|r|e]; [|now rewrite Htable..].
    unfold put_todos. destruct id as [|c id]; [cbn; now rewrite Htable|].
    unfold_handlers.
    destruct (render (num_to_string E) (username user)) as [name|];
      cbn; [|now rewrite Htable].
    destruct (marshallable E reqbody);
      [|destruct v; cbn; now rewrite Htable].
    destruct v; cbn; (destruct (put_item_ok w); cbn; [|now rewrite Htable]);
      (rewrite Htable, lookup_insert_ne; [assumption|]);
      intros [= _ H]; cbv in H; discriminate.
Qed.

(** X14.  No sequence of requests replaces or removes a stored credential
    record: what the table holds under a sort key `user` stays. *)
Theorem credentials_never_overwritten (history : list (request Num * world Num))
  (t : gmap (string * string) (item Num)) (pk : string) (stored : item Num) :
  t !! (pk, "user") = Some stored ->
  replay E v t history !! (pk, "user") = Some stored.
Proof.
  revert t. induction history as [|[req w] rest IH]; intros t Hstored; simpl;
    [assumption|].
  apply IH. now apply serve_keeps_user.
Qed.

(** X15.  A PUT /todos/:id by one user for one id does not change what GET
    /todos/:id answers for any other pair of user and id. *)
Theorem todos_put_leaves_other_pairs (authorization authorization' : option string)
  (user user' : claims Num) (name name' id id' : string) (reqbody : json Num)
  (w w' : world Num) :
  authenticated E w v authorization user ->
  render (num_to_string E) (username user) = Some name ->
  authenticated E w' v authorization' user' ->
  render (num_to_string E) (username user') = Some name' ->
  (id', name') <> (id, name) ->
  table w' = table w ->
  answer (todos_get E v authorization' id'
            (with_table w' (table_after (todos_put E v authorization id reqbody w))))
  = answer (todos_get E v authorization' id' w').
Proof.
  intros Hauth Hname [s' Hs'] Hname' Hdiff Hsame.
  assert (Hkey : table_after (todos_put E v authorization id reqbody w)
                   !! todo_key v id' name' = table w' !! todo_key v id' name').
  { rewrite Hsame. apply todos_put_frame. intros [-> [u [Hu Hn]]].
    rewrite (authenticated_unique _ _ _ _ Hu Hauth) in Hn. congruence. }
  destruct (authMiddleware_any_state w' authorization' _ _
              {| st_table := table_after (todos_put E v authorization id reqbody w);
                 st_calls := [] |} _ Hs') as [s2 [Hs2 Htable2]].
  pose proof (authMiddleware_table _ _ _ _ _ _ _ Hs') as Htable'.
  cbn in Htable2, Htable'.
  unfold todos_get, run, bind.
  change (authMiddleware E (with_table w' ?t) v authorization')
    with (authMiddleware E w' v authorization').
  cbn [table with_table]. rewrite Hs2, Hs'.
  unfold get_todos. destruct id' as [|c id']; [reflexivity|].
  unfold_handlers. rewrite Hname'. cbn.
  destruct (get_item_ok w'); cbn; [|reflexivity].
  rewrite Htable2, Htable'. unfold todo_key in Hkey.
  destruct v; rewrite Hkey; reflexivity.
Qed.

End TableMore.

Lemma reading_routes_write_nothing_witness :
  let r := serve Sample.lib Part000 (TodosGet (Some "Bearer abc@s3cret") "1")
             Sample.abc_world in
  table_after r = table Sample.abc_world
  /\ forall pk sk, ~ In (PutItem pk sk) (calls r).
Proof.
  apply (reading_routes_write_nothing Sample.lib Part000
           (TodosGet (Some "Bearer abc@s3cret") "1") Sample.abc_world).
  right. right. eexists _, _. reflexivity.
Defined.

Lemma credentials_never_overwritten_witness :
  replay Sample.lib Part000 (table Sample.abc_world)
    [(Register Sample.abc_registration, Sample.abc_world);
     (TodosPut (Some "Bearer abc@s3cret") "abc" (JObj [("title", JStr "user")]),
      Sample.abc_world)]
    !! ("user#abc", "user")
  = Some Sample.abc_user.
Proof.
  apply (credentials_never_overwritten Sample.lib Part000 _ (table Sample.abc_world)
           "user#abc" Sample.abc_user).
  reflexivity.
Defined.

Lemma todos_put_leaves_other_pairs_witness :
  let put := todos_put Sample.lib Part000 (Some "Bearer abc@s3cret") "1"
               (JObj [("title", JStr "milk")]) Sample.empty_world in
  answer (todos_get Sample.lib Part000 (Some "Bearer abc@s3cret") "2"
            (with_table Sample.empty_world (table_after put)))
  = answer (todos_get Sample.lib Part000 (Some "Bearer abc@s3cret") "2"
              Sample.empty_world).
Proof.
  intros put.
  refine (todos_put_leaves_other_pairs Sample.lib Part000
            (Some "Bearer abc@s3cret") (Some "Bearer abc@s3cret") _ _
            "abc" "abc" "1" "2" (JObj [("title", JStr "milk")])
            Sample.empty_world Sample.empty_world _ _ _ _ _ _).
  - eexists. reflexivity.
  - reflexivity.
  - eexists. reflexivity.
  - reflexivity.
  - discriminate.
  - reflexivity.
Defined.


(** *** From /login to /protected *)

Section Session.
Context {Num : Type}.
Variable E : externals Num.
Variable v : variant.

(** A header whose second component verifies is let through. *)
Lemma authMiddleware_lets_through (w : world Num) (authHeader token secret : string)
  (user : claims Num) (s : hstate Num) :
  split " " authHeader !! 1%nat = Some token ->
  token <> EmptyString ->
  current_secret w v = Some secret ->
  jwt_verify E token secret (now_ms w) = Some user ->
  exists s', authMiddleware E w v (Some authHeader) s = (s', Go user).
Proof.
  intros Hsplit Hne Hsecret Hverify. unfold authMiddleware, current_secret in *.
  destruct authHeader as [|c h]; [discriminate|].
  rewrite Hsplit. destruct token as [|c' t]; [congruence|].
  unfold_handlers.
  destruct v; cbn.
  - injection Hsecret as <-. rewrite Hverify. eauto.
  - rewrite Hsecret. cbn. rewrite Hverify. eauto.
  - rewrite Hsecret. cbn. rewrite Hverify. eauto.
Qed.

(** The token of a login that answered 200. *)
Lemma login_success_token (reqbody : json Num) (w : world Num) (r : response Num) :
  answer (login E v reqbody w) = Responded r ->
  status r = 200 ->
  exists secret mail name,
    current_secret w v = Some secret
    /\ render (num_to_string E) (own_property reqbody "username") = Some name
    /\ payload r =
       JsonBody (JObj [("token",
         JStr (jwt_sign E {| username := own_property reqbody "username";
                             email := mail;
                             exp := now_ms w / 1000 + 43200 |} secret))]).
Proof.
  unfold login, run, post_login, current_secret. unfold_handlers.
  intros Hr Hs.
  crack Hr; try discriminate;
    injection Hr as <-; simpl in Hs; try discriminate;
    eexists _, _, _; repeat split; reflexivity.
Qed.

(** X16.  With a JWT library that verifies what it signed, the token of a
    login answered 200, sent back as `Bearer <token>`, opens /protected,
    which greets the user by the username of the login. *)
Theorem login_then_protected (reqbody : json Num) (w w' : world Num)
  (token : string) :
  answer (login E v reqbody w)
  = Responded {| status := 200;
                 payload := JsonBody (JObj [("token", JStr token)]) |} ->
  mentions " " token = false ->
  token <> EmptyString ->
  current_secret w' v = current_secret w v ->
  (forall c secret,
     token = jwt_sign E c secret ->
     current_secret w v = Some secret ->
     jwt_verify E token secret (now_ms w') = Some c) ->
  exists name,
    render (num_to_string E) (own_property reqbody "username") = Some name
    /\ answer (protected E v (Some ("Bearer " +:+ token)) w')
       = Responded {| status := 200;
                      payload := TextBody ("Hello " +:+ name +:+ "!") |}.
Proof.
  intros Hlogin Hspace Hne Hsecret Hlib.
  destruct (login_success_token reqbody w _ Hlogin eq_refl)
    as (secret & mail & name & Hcur & Hname & Htoken).
  cbn in Htoken. injection Htoken as Htoken.
  exists name. split; [assumption|].
  destruct (authMiddleware_lets_through w' ("Bearer " +:+ token) token secret
              {| username := own_property reqbody "username"; email := mail;
                 exp := now_ms w / 1000 + 43200 |}
              {| st_table := table w'; st_calls := [] |}) as [s' Hs'].
  - change ("Bearer " +:+ token) with ("Bearer" +:+ String " " token).
    rewrite (split_append " " "Bearer" token eq_refl), (split_whole _ _ Hspace).
    reflexivity.
  - assumption.
  - now rewrite Hsecret.
  - apply (Hlib _ _ Htoken Hcur).
  - unfold protected, run, bind. rewrite Hs'.
    unfold get_protected. unfold_handlers. cbn. rewrite Hname. reflexivity.
Qed.

End Session.

Lemma login_then_protected_witness :
  exists name,
    render (num_to_string Sample.strict_lib)
      (own_property Sample.abc_registration "username") = Some name
    /\ answer (protected Sample.strict_lib IndexJs (Some "Bearer mysecretkey@abc")
                 Sample.abc_world)
       = Responded {| status := 200;
                      payload := TextBody ("Hello " +:+ name +:+ "!") |}.
Proof.
  apply (login_then_protected Sample.strict_lib IndexJs Sample.abc_registration
           Sample.abc_world Sample.abc_world "mysecretkey@abc");
    try reflexivity; try discriminate.
  intros c secret Htoken [= <-].
  destruct c as [[[| | |u| |]|] [m|] e]; cbn in Htoken; try discriminate.
  destruct (e =? 1700043200)%Z eqn:He; [|discriminate].
  apply Z.eqb_eq in He as ->.
  cbv in Htoken. injection Htoken as <-. reflexivity.
Defined.

(** *** validateEmail *)

Section AddressPattern.
Import Pattern.

Lemma string_app_cons (c : ascii) (a b : string) : String c a +:+ b = String c (a +:+ b).
Proof. reflexivity. Qed.

Lemma string_app_nil (b : string) : EmptyString +:+ b = b.
Proof. reflexivity. Qed.

Lemma string_app_empty_r (s : string) : s +:+ EmptyString = s.
Proof. induction s as [|c s IH]; [reflexivity|]. now rewrite string_app_cons, IH. Qed.

Lemma string_app_assoc (a b c : string) : (a +:+ b) +:+ c = a +:+ b +:+ c.
Proof. induction a as [|x a IH]; [reflexivity|]. now rewrite !string_app_cons, IH. Qed.

Lemma string_app_empty (a b : string) : a +:+ b = EmptyString -> a = EmptyString /\ b = EmptyString.
Proof. destruct a; [now split|discriminate]. Qed.

Lemma nullable_spec (r : regex) : nullable r = true <-> Matches r EmptyString.
Proof.
  induction r as [| |class|r1 IH1 r2 IH2|r1 IH1 r2 IH2|r IH]; simpl.
  - split; [discriminate|inversion 1].
  - split; [constructor|reflexivity].
  - split; [discriminate|inversion 1].
  - rewrite orb_true_iff, IH1, IH2. split.
    + intros [H|H]; [now apply MAltL|now apply MAltR].
    + inversion 1; subst; auto.
  - rewrite andb_true_iff, IH1, IH2. split.
    + intros [H1 H2]. now apply (MCat _ _ EmptyString EmptyString).
    + inversion 1 as [| | | |? ? s1 s2 ? H1 H2 Heq| |]; subst.
      symmetry in Heq. apply string_app_empty in Heq as [-> ->]. now split.
  - split; [constructor|reflexivity].
Qed.

(** A star that starts with [c] starts with a non-empty round. *)
Lemma star_cons (r : regex) (c : ascii) (s : string) :
  Matches (Star r) (String c s) ->
  exists s1 s2, s = s1 +:+ s2 /\ Matches r (String c s1) /\ Matches (Star r) s2.
Proof.
  intros H. remember (Star r) as r' eqn:Hr. remember (String c s) as t eqn:Ht.
  revert Hr Ht.
  induction H as [| | | | |r0|r0 s1 s2 t H1 _ H2 IH2 Heq]; try discriminate.
  intros [= ->] ->.
  destruct s1 as [|c1 s1].
  - rewrite ?string_app_cons, ?string_app_nil in Heq. apply IH2; [reflexivity|now symmetry].
  - rewrite ?string_app_cons, ?string_app_nil in Heq. injection Heq as <- ->.
    now exists s1, s2.
Qed.

Lemma deriv_spec (r : regex) (c : ascii) (s : string) :
  Matches (deriv c r) s <-> Matches r (String c s).
Proof.
  revert s. induction r as [| |class|r1 IH1 r2 IH2|r1 IH1 r2 IH2|r IH]; intros s; simpl.
  - split; inversion 1.
  - split; inversion 1.
  - destruct (class c) eqn:Hc.
    + split; inversion 1; subst; [now constructor|constructor].
    + split; inversion 1; subst. congruence.
  - split.
    + inversion 1; subst; [apply MAltL|apply MAltR]; [now apply IH1|now apply IH2].
    + inversion 1; subst; [apply MAltL|apply MAltR]; [now apply IH1|now apply IH2].
  - assert (Hcat : Matches (Cat (deriv c r1) r2) s ->
                   Matches (Cat r1 r2) (String c s)).
    { inversion 1 as [| | | |? ? s1 s2 ? H1 H2 Heq| |]; subst.
      apply (MCat _ _ (String c s1) s2); [now apply IH1|assumption|reflexivity]. }
    destruct (nullable r1) eqn:Hn.
    + split.
      * inversion 1; subst; [now apply Hcat|].
        apply (MCat _ _ EmptyString (String c s));
          [now apply nullable_spec|now apply IH2|reflexivity].
      * inversion 1 as [| | | |? ? s1 s2 ? H1 H2 Heq| |]; subst.
        destruct s1 as [|c1 s1]; rewrite ?string_app_cons, ?string_app_nil in Heq.
        -- subst s2. apply MAltR. now apply IH2.
        -- injection Heq as <- ->. apply MAltL.
           apply (MCat _ _ s1 s2); [now apply IH1|assumption|reflexivity].
    + split; [apply Hcat|].
      inversion 1 as [| | | |? ? s1 s2 ? H1 H2 Heq| |]; subst.
      destruct s1 as [|c1 s1]; rewrite ?string_app_cons, ?string_app_nil in Heq.
      * apply nullable_spec in H1. congruence.
      * injection Heq as <- ->.
        apply (MCat _ _ s1 s2); [now apply IH1|assumption|reflexivity].
  - split.
    + inversion 1 as [| | | |? ? s1 s2 ? H1 H2 Heq| |]; subst.
      apply (MStarCons _ (String c s1) s2); [now apply IH|assumption|reflexivity].
    + intros H. apply star_cons in H as (s1 & s2 & -> & H1 & H2).
      apply (MCat _ _ s1 s2); [now apply IH|assumption|reflexivity].
Qed.

Lemma accepts_spec (r : regex) (s : string) : accepts r s = true <-> Matches r s.
Proof.
  revert r. induction s as [|c s IH]; intros r; simpl.
  - apply nullable_spec.
  - rewrite IH. apply deriv_spec.
Qed.
Ltac each_char c := destruct c as [[] [] [] [] [] [] [] []]; vm_compute; try reflexivity; try (intros; congruence).

Lemma lower_at (c : ascii) : Ascii.eqb (lower c) "@" = Ascii.eqb c "@".
Proof. each_char c. Qed.

Lemma lower_quote (c : ascii) : Ascii.eqb (lower c) quote = Ascii.eqb c quote.
Proof. each_char c. Qed.

Lemma lower_whitespace (c : ascii) : whitespace (lower c) = whitespace c.
Proof. each_char c. Qed.

Lemma lower_local_char (c : ascii) : local_char (lower c) = local_char c.
Proof. each_char c. Qed.

Lemma lower_host_char (c : ascii) : host_char c = true -> host_char (lower c) = true.
Proof. each_char c. Qed.

Lemma lower_letter (c : ascii) : letter c = true -> letter (lower c) = true.
Proof. each_char c. Qed.

Lemma local_char_solid (c : ascii) : local_char c = true -> solid c = true.
Proof. each_char c. Qed.

Lemma host_char_solid (c : ascii) : host_char c = true -> solid c = true.
Proof. each_char c. Qed.

Lemma letter_solid (c : ascii) : letter c = true -> solid c = true.
Proof. each_char c. Qed.

Lemma digit_solid (c : ascii) : digit c = true -> solid c = true.
Proof. each_char c. Qed.

Lemma only_solid (x c : ascii) : solid x = true -> only x c = true -> solid c = true.
Proof. unfold only. intros Hx Hc. apply Ascii.eqb_eq in Hc as ->. exact Hx. Qed.

Lemma cat_inv (r1 r2 : regex) (s : string) :
  Matches (Cat r1 r2) s ->
  exists s1 s2, s = s1 +:+ s2 /\ Matches r1 s1 /\ Matches r2 s2.
Proof. inversion 1; subst; eauto. Qed.

Lemma chr_inv (class : ascii -> bool) (s : string) :
  Matches (Chr class) s -> exists c, s = String c EmptyString /\ class c = true.
Proof. inversion 1; subst; eauto. Qed.

Lemma alt_inv (r1 r2 : regex) (s : string) :
  Matches (Alt r1 r2) s -> Matches r1 s \/ Matches r2 s.
Proof. inversion 1; subst; auto. Qed.

Lemma mentions_app (c : ascii) (a b : string) :
  mentions c (a +:+ b) = mentions c a || mentions c b.
Proof.
  induction a as [|x a IH]; [reflexivity|].
  rewrite string_app_cons. simpl. rewrite IH. now rewrite orb_assoc.
Qed.

Lemma all_chars_app (P : ascii -> bool) (a b : string) :
  all_chars P (a +:+ b) = all_chars P a && all_chars P b.
Proof.
  induction a as [|x a IH]; [reflexivity|].
  rewrite string_app_cons. simpl. rewrite IH. now rewrite andb_assoc.
Qed.

Lemma toLowerCase_app (a b : string) :
  toLowerCase (a +:+ b) = toLowerCase a +:+ toLowerCase b.
Proof.
  induction a as [|x a IH]; [reflexivity|].
  rewrite string_app_cons. simpl. now rewrite IH.
Qed.

Lemma mentions_at_lower (s : string) :
  mentions "@" (toLowerCase s) = mentions "@" s.
Proof. induction s as [|c s IH]; [reflexivity|]. simpl. now rewrite lower_at, IH. Qed.

Lemma all_chars_lower (P Q : ascii -> bool) (s : string) :
  (forall c, P c = true -> Q (lower c) = true) ->
  all_chars P s = true -> all_chars Q (toLowerCase s) = true.
Proof.
  intros HPQ. induction s as [|c s IH]; [reflexivity|]. simpl.
  rewrite !andb_true_iff. intros [Hc Hs]. split; [now apply HPQ|now apply IH].
Qed.

Lemma solid_lower (s : string) :
  all_chars solid (toLowerCase s) = all_chars solid s.
Proof.
  induction s as [|c s IH]; [reflexivity|]. simpl. unfold solid at 1 3.
  now rewrite lower_whitespace, IH.
Qed.

(** The characters of a matched string lie within the classes of the pattern. *)
Lemma matches_within (P : ascii -> bool) (r : regex) (s : string) :
  classes_within P r -> Matches r s -> all_chars P s = true.
Proof.
  intros Hr H. induction H as [|class c Hc|r1 r2 s H IH|r1 r2 s H IH
                              |r1 r2 s1 s2 s H1 IH1 H2 IH2 ->|r
                              |r s1 s2 s H1 IH1 H2 IH2 ->]; simpl in Hr.
  - reflexivity.
  - simpl. now rewrite (Hr c Hc).
  - apply IH, Hr.
  - apply IH, Hr.
  - rewrite all_chars_app, IH1, IH2; [reflexivity|apply Hr..].
  - reflexivity.
  - rewrite all_chars_app, IH1, IH2; [reflexivity|exact Hr..].
Qed.

(** Runs of one class. *)
Lemma star_of_class (class : ascii -> bool) (s : string) :
  all_chars class s = true -> Matches (Star (Chr class)) s.
Proof.
  induction s as [|c s IH]; simpl; [constructor|].
  rewrite andb_true_iff. intros [Hc Hs].
  apply (MStarCons _ (String c EmptyString) s); [now constructor|now apply IH|reflexivity].
Qed.

Lemma repeated_of_class (class : ascii -> bool) (s : string) :
  s <> EmptyString -> all_chars class s = true -> Matches (repeated (Chr class)) s.
Proof.
  destruct s as [|c s]; [congruence|]. simpl. rewrite andb_true_iff.
  intros _ [Hc Hs].
  apply (MCat _ _ (String c EmptyString) s); [now constructor|now apply star_of_class|reflexivity].
Qed.

(** What the pattern accepts holds an at sign. *)
Lemma address_holds_at (s : string) : Matches address s -> mentions "@" s = true.
Proof.
  unfold address. intros H.
  apply cat_inv in H as (s1 & s2 & -> & _ & H2).
  apply cat_inv in H2 as (s3 & s4 & -> & H3 & _).
  apply chr_inv in H3 as (c & -> & Hc).
  apply Ascii.eqb_eq in Hc as ->.
  rewrite mentions_app, string_app_cons. simpl. now rewrite orb_true_r.
Qed.

(** What validateEmail accepts holds an at sign. *)
Lemma email_requires_at (s : string) :
  email_matches s = true -> mentions "@" s = true.
Proof.
  unfold email_matches. rewrite accepts_spec. intros H.
  rewrite <- mentions_at_lower. now apply address_holds_at.
Qed.

(** X17.  validateEmail accepts every address made of a non-empty local
    part without the excluded characters, an at sign, a non-empty host
    label of letters, digits and hyphens, a dot, and two or more letters,
    in either case of the letters. *)
Theorem validateEmail_accepts_plain (local host tld : string) :
  local <> EmptyString -> all_chars local_char local = true ->
  host <> EmptyString -> all_chars host_char host = true ->
  (2 <= String.length tld)%nat -> all_chars letter tld = true ->
  email_matches (local +:+ "@" +:+ host +:+ "." +:+ tld) = true.
Proof.
  intros Hl Cl Hh Ch Lt Ct. unfold email_matches. apply accepts_spec.
  rewrite !toLowerCase_app. change (toLowerCase "@") with "@".
  change (toLowerCase ".") with ".".
  assert (Hl' : toLowerCase local <> EmptyString) by (destruct local; [congruence|discriminate]).
  assert (Hh' : toLowerCase host <> EmptyString) by (destruct host; [congruence|discriminate]).
  assert (Cl' : all_chars local_char (toLowerCase local) = true).
  { apply (all_chars_lower local_char); [|assumption].
    intros c Hc. now rewrite lower_local_char. }
  assert (Ch' : all_chars host_char (toLowerCase host) = true)
    by (apply (all_chars_lower host_char); [apply lower_host_char|assumption]).
  assert (Ct' : all_chars letter (toLowerCase tld) = true)
    by (apply (all_chars_lower letter); [apply lower_letter|assumption]).
  assert (Lt' : exists a b rest, toLowerCase tld = String a (String b rest)).
  { destruct tld as [|a [|b rest]]; simpl in Lt; try lia. simpl. eauto. }
  destruct Lt' as (a & b & rest & Htld). rewrite Htld in *.
  simpl in Ct'. apply andb_true_iff in Ct' as [Ha Ct'].
  apply andb_true_iff in Ct' as [Hb Hrest].
  unfold address.
  eapply MCat; [| |reflexivity].
  - apply MAltL. unfold dotted.
    apply (MCat _ _ (toLowerCase local) EmptyString); [now apply repeated_of_class|apply MStarNil|].
    now rewrite string_app_empty_r.
  - eapply (MCat _ _ "@"); [now constructor| |reflexivity].
    apply MAltR. unfold named.
    eapply (MCat _ _ (toLowerCase host +:+ ".") (String a (String b rest))).
    + unfold repeated at 1.
      apply (MCat _ _ (toLowerCase host +:+ ".") EmptyString); [|apply MStarNil|now rewrite string_app_empty_r].
      apply (MCat _ _ (toLowerCase host) "."); [now apply repeated_of_class|now constructor|reflexivity].
    + eapply (MCat _ _ (String a EmptyString)); [now constructor| |reflexivity].
      eapply (MCat _ _ (String b EmptyString)); [now constructor| |reflexivity].
      now apply star_of_class.
    + now rewrite string_app_assoc.
Qed.

Ltac class_solid :=
  let c := fresh "c" in let Hc := fresh "Hc" in
  intros c Hc;
  first [ now apply local_char_solid | now apply host_char_solid
        | now apply letter_solid | now apply digit_solid
        | eapply only_solid; [|exact Hc]; reflexivity ].

Lemma within_digits13 : classes_within solid digits13.
Proof. unfold digits13, opt. simpl. repeat split; class_solid. Qed.

Lemma within_domain :
  classes_within solid (Cat (Chr (only "@")) (Alt bracketed named)).
Proof.
  unfold bracketed, named, repeated, digits13, opt. simpl.
  repeat split; class_solid.
Qed.

Lemma quoted_starts (s : string) :
  Matches quoted s -> exists rest, s = String quote rest.
Proof.
  unfold quoted. intros H.
  apply cat_inv in H as (s1 & s2 & -> & H1 & _).
  apply chr_inv in H1 as (c & -> & Hc).
  apply Ascii.eqb_eq in Hc as ->. rewrite string_app_cons. eauto.
Qed.

(** X18.  An address that validateEmail accepts either begins with a double
    quote or holds no whitespace at all: the quoted local part is the only
    place where the pattern lets a space through. *)
Theorem validateEmail_whitespace_needs_quote (s : string) :
  email_matches s = true ->
  (exists rest, s = String quote rest) \/ all_chars solid s = true.
Proof.
  unfold email_matches. rewrite accepts_spec. unfold address. intros H.
  apply cat_inv in H as (s1 & s2 & Heq & H1 & H2).
  apply alt_inv in H1 as [Hd|Hq].
  - right. rewrite <- solid_lower, Heq, all_chars_app.
    apply andb_true_iff. split.
    + apply (matches_within solid dotted); [|assumption].
      unfold dotted, repeated. simpl.
      repeat split; class_solid.
    + apply (matches_within solid _ _ within_domain H2).
  - left. apply quoted_starts in Hq as [rest Hrest].
    rewrite Hrest, string_app_cons in Heq.
    destruct s as [|c s]; [discriminate|]. simpl in Heq.
    injection Heq as Hc _.
    assert (c = quote) as ->; [|eauto].
    apply Ascii.eqb_eq. rewrite <- lower_quote, Hc. apply Ascii.eqb_refl.
Qed.

(** X19.  Under the pattern of the source, /register of the third revision
    refuses a body of the expected shape whose address holds no at sign,
    with 400 `Invalid email address`, before any external call. *)
Theorem register_address_needs_at {Num : Type} (E : externals Num)
  (reqbody : json Num) (w : world Num) (uname password fullname mail : string) :
  well_formed reqbody uname password fullname mail ->
  mentions "@" mail = false ->
  register (with_address_pattern E) Part001 reqbody w
  = {| answer := Responded (message 400 "Invalid email address");
       calls := [];
       table_after := table w |}.
Proof.
  intros Hshape Hat.
  apply (register_unmatched_email (with_address_pattern E) reqbody w
           uname password fullname mail Hshape).
  simpl. destruct (email_matches mail) eqn:Hm; [|reflexivity].
  apply email_requires_at in Hm. congruence.
Qed.

End AddressPattern.

Lemma validateEmail_accepts_plain_witness :
  Pattern.email_matches "Jane-Doe@Mail-1.COM" = true.
Proof.
  apply (validateEmail_accepts_plain "Jane-Doe" "Mail-1" "COM");
    try reflexivity; try discriminate.
  simpl. lia.
Defined.

Lemma validateEmail_whitespace_needs_quote_witness :
  (exists rest, "a@b.com" = String Pattern.quote rest)
  \/ Pattern.all_chars Pattern.solid "a@b.com" = true.
Proof.
  apply (validateEmail_whitespace_needs_quote "a@b.com"). reflexivity.
Defined.

Lemma register_address_needs_at_witness :
  register (with_address_pattern Sample.lib) Part001
    (JObj [("username", JStr "abc"); ("password", JStr "abcdef");
           ("fullname", JStr "Abc Def"); ("email", JStr "abc.example.com")])
    Sample.empty_world
  = {| answer := Responded (message 400 "Invalid email address");
       calls := [];
       table_after := ∅ |}.
Proof.
  apply (register_address_needs_at Sample.lib _ Sample.empty_world
           "abc" "abcdef" "Abc Def" "abc.example.com");
    [|reflexivity].
  unfold well_formed. simpl. repeat split; lia.
Defined.
